(** * Answer grading endpoint: [backend/main.py]

    A shallow embedding of the [submit_answer] request handler and the
    properties of its response contract.

    The handler talks to three things it does not own: the recognition
    service (through [requests.post]), the LaTeX parser and the
    computer-algebra system (SymPy).  Every such call is an event of an
    inductive program tree; a _world_ answers the events, and running a
    program against a world yields its outcome together with the log of the
    calls that were issued. *)

From Stdlib Require Import List NArith ZArith Bool Ascii String Lia.
From Stdlib Require Import Strings.Byte.
Import ListNotations.

#[local] Set Warnings "-register-all".

Local Open Scope N_scope.

(** ** Python values *)

(** A Python [str] is a sequence of Unicode code points. *)
Definition str := list N.

(** The code points of an ASCII literal of the source. *)
Fixpoint lit (s : string) : str :=
  match s with
  | EmptyString => []
  | String c r => N_of_ascii c :: lit r
  end.

Fixpoint str_eqb (a b : str) : bool :=
  match a, b with
  | [], [] => true
  | x :: a', y :: b' => N.eqb x y && str_eqb a' b'
  | _, _ => false
  end.

(** Truth value of a [str]: only the empty string is falsy. *)
Definition truthy (s : str) : bool :=
  match s with
  | [] => false
  | _ :: _ => true
  end.

(** [str.isspace] on one code point: the characters CPython's
    [_PyUnicode_IsWhitespace] accepts. *)
Definition isspace (c : N) : bool :=
  ((9 <=? c) && (c <=? 13))
  || ((28 <=? c) && (c <=? 32))
  || (c =? 133) || (c =? 160) || (c =? 5760)
  || ((8192 <=? c) && (c <=? 8202))
  || (c =? 8232) || (c =? 8233) || (c =? 8239) || (c =? 8287)
  || (c =? 12288).

Fixpoint lstrip (s : str) : str :=
  match s with
  | [] => []
  | c :: r => if isspace c then lstrip r else s
  end.

Definition rstrip (s : str) : str := rev (lstrip (rev s)).

(** [s.strip()] with no argument. *)
Definition strip (s : str) : str := rstrip (lstrip s).

(** An exception object: its class name and what [str(e)] gives. *)
Record exn : Type := Exn { exn_class : str; exn_str : str }.

(** A computation that returns a value or raises an instance of
    [Exception]. *)
Definition result (A : Type) : Type := (exn + A)%type.

(** What code that evaluates arbitrary expressions may raise: an instance
    of [Exception], which [except Exception] catches, or an exception that
    is not one ([SystemExit], [KeyboardInterrupt]), which it lets
    through. *)
Inductive raised : Type :=
| an_Exception (e : exn)
| not_an_Exception (e : exn).

Definition lift_result {A : Type} (r : result A) : raised + A :=
  match r with
  | inl e => inl (an_Exception e)
  | inr a => inr a
  end.

(** ** JSON documents and the Python values they decode to *)

Inductive json : Type :=
| JNull
| JBool (b : bool)
| JNum (digits : str)
| JStr (s : str)
| JArr (items : list json)
| JObj (members : list (str * json)).

(** Members of a decoded object in document order; as in a Python [dict]
    built from the pairs, the last binding of a key is the one that
    counts. *)
Fixpoint lookup (k : str) (members : list (str * json)) : option json :=
  match members with
  | [] => None
  | (k', v) :: r =>
      match lookup k r with
      | Some v' => Some v'
      | None => if str_eqb k k' then Some v else None
      end
  end.

(** A number literal decodes to a [float] when it has a fraction or an
    exponent or is one of [NaN], [Infinity], [-Infinity], to an [int]
    otherwise. *)
Definition is_float_literal (digits : str) : bool :=
  existsb (fun c => (c =? 46) || (c =? 101) || (c =? 69)
                    || (c =? 78) || (c =? 73)) digits.

(** [type(v).__name__] of a decoded value. *)
Definition type_name (v : json) : str :=
  match v with
  | JNull => lit "NoneType"
  | JBool _ => lit "bool"
  | JNum digits => if is_float_literal digits then lit "float" else lit "int"
  | JStr _ => lit "str"
  | JArr _ => lit "list"
  | JObj _ => lit "dict"
  end.

(** The exception of [obj.attr] on an object without that attribute. *)
Definition AttributeError (obj : json) (attr : string) : exn :=
  Exn (lit "AttributeError")
      (lit "'" ++ type_name obj ++ lit "' object has no attribute '"
       ++ lit attr ++ lit "'").

(** [obj.get(key, default)]: only a [dict] has the method. *)
Definition py_get (obj : json) (key : str) (default : json) : result json :=
  match obj with
  | JObj members =>
      match lookup key members with
      | Some v => inr v
      | None => inr default
      end
  | _ => inl (AttributeError obj "get")
  end.

(** [obj.strip()]: only a [str] has the method. *)
Definition py_strip (obj : json) : result str :=
  match obj with
  | JStr s => inr (strip s)
  | _ => inl (AttributeError obj "strip")
  end.

(** ** [base64.b64encode(...).decode()] *)

Definition b64_alphabet : str :=
  lit "ABCDEFGHIJKLMNOPQRSTUVWXYZabcdefghijklmnopqrstuvwxyz0123456789+/".

Definition b64_char (n : N) : N := nth (N.to_nat n) b64_alphabet 0.

Definition b64_pad : N := 61.

Fixpoint b64_groups (bs : list N) : str :=
  match bs with
  | [] => []
  | [a] =>
      [ b64_char (N.shiftr a 2);
        b64_char (N.shiftl (N.land a 3) 4);
        b64_pad; b64_pad ]
  | [a; b] =>
      [ b64_char (N.shiftr a 2);
        b64_char (N.lor (N.shiftl (N.land a 3) 4) (N.shiftr b 4));
        b64_char (N.shiftl (N.land b 15) 2);
        b64_pad ]
  | a :: b :: c :: r =>
      b64_char (N.shiftr a 2)
      :: b64_char (N.lor (N.shiftl (N.land a 3) 4) (N.shiftr b 4))
      :: b64_char (N.lor (N.shiftl (N.land b 15) 2) (N.shiftr c 6))
      :: b64_char (N.land c 63)
      :: b64_groups r
  end.

Definition b64encode (bs : list byte) : str := b64_groups (map Byte.to_N bs).

(** ** Process configuration *)

(** The two variables of the process environment the module reads at import
    time; [None] is an unset variable. *)
Record environ : Type := Environ {
  env_MATHPIX_APP_ID : option str;
  env_MATHPIX_APP_KEY : option str
}.

(** [os.getenv(name, default)]. *)
Definition getenv (value : option str) (default : str) : str :=
  match value with
  | Some v => v
  | None => default
  end.

Definition MATHPIX_APP_ID (env : environ) : str :=
  getenv (env_MATHPIX_APP_ID env) (lit "YOUR_APP_ID").

Definition MATHPIX_APP_KEY (env : environ) : str :=
  getenv (env_MATHPIX_APP_KEY env) (lit "YOUR_APP_KEY").

Definition CORRECT_ANSWER : str := lit "(x + 1)**2".

(** ** The recognition service as [requests] sees it *)

Record request : Type := Request {
  url : str;
  headers : list (str * str);
  json_body : json;
  timeout : Z
}.

(** A [requests.Response]: the status, the raw body, and what [.json()]
    gives on that body (the decoded document, or the decoder's exception). *)
Record response : Type := Response {
  status_code : Z;
  text : str;
  response_json : result json
}.

(** What the handler hands back to the framework: a response with its HTTP
    status, or an exception that leaves the handler. *)
Inductive outcome : Type :=
| Returned (status : Z) (body : json)
| Raised (e : exn).

(** The three-field body of every 200 response. *)
Definition payload (latex : str) (correct : json) (feedback : str) : json :=
  JObj [ (lit "latex", JStr latex);
         (lit "correct", correct);
         (lit "feedback", JStr feedback) ].

(** A Python [bool] as a JSON value. *)
Definition py_bool (b : bool) : json := JBool b.

(** The [correct] member of a returned body, when there is one. *)
Definition correct_field (o : outcome) : option json :=
  match o with
  | Returned _ (JObj members) => lookup (lit "correct") members
  | _ => None
  end.

(** ** Programs over external calls *)

Section Handler.

(** The objects SymPy computes with. *)
Variable Obj : Type.

(** The calls that leave the handler. *)
Inductive extcall : Type :=
| requests_post (rq : request)
| parse_latex (s : str)
| sympify (s : str)
| sub (a b : Obj)
| simplify (a : Obj)
| eq_zero (a : Obj).

(** What each call gives back: every call but the comparison with zero may
    raise.  [sympify] evaluates the string it is given, so what it raises
    need not be an instance of [Exception]. *)
Definition answer (c : extcall) : Type :=
  match c with
  | requests_post _ => result response
  | parse_latex _ => result Obj
  | sympify _ => (raised + Obj)%type
  | sub _ _ => result Obj
  | simplify _ => result Obj
  | eq_zero _ => bool
  end.

Inductive prog (R : Type) : Type :=
| Ret (r : R)
| Call (c : extcall) (k : answer c -> prog R).

Arguments Ret {R} r.
Arguments Call {R} c k.

Fixpoint bind {A B : Type} (p : prog A) (f : A -> prog B) : prog B :=
  match p with
  | Ret a => f a
  | Call c k => Call c (fun x => bind (k x) f)
  end.

(** One call whose answer is the result. *)
Definition call (c : extcall) : prog (answer c) := Call c Ret.

(** Sequencing inside a [try] block: an exception ends the block. *)
Definition try_bind {A B : Type}
    (p : prog (raised + A)) (f : A -> prog (raised + B))
    : prog (raised + B) :=
  bind p (fun r =>
    match r with
    | inl e => Ret (inl e)
    | inr a => f a
    end).

(** A step of a [try] block that raises instances of [Exception] only. *)
Definition may_raise {A : Type} (p : prog (result A)) : prog (raised + A) :=
  bind p (fun r => Ret (lift_result r)).

Notation "x <- p ;; q" := (try_bind p (fun x => q))
  (at level 61, p at next level, right associativity).

(** *** The handler *)

Definition configured (env : environ) : bool :=
  negb (str_eqb (MATHPIX_APP_ID env) (lit "YOUR_APP_ID")
        || str_eqb (MATHPIX_APP_KEY env) (lit "YOUR_APP_KEY")).

Definition request_headers (env : environ) : list (str * str) :=
  [ (lit "app_id", MATHPIX_APP_ID env);
    (lit "app_key", MATHPIX_APP_KEY env);
    (lit "Content-type", lit "application/json") ].

Definition data (img_base64 : str) : json :=
  JObj [ (lit "src", JStr (lit "data:image/png;base64," ++ img_base64));
         (lit "formats", JArr [JStr (lit "text")]);
         (lit "data_options",
           JObj [(lit "include_asciimath", py_bool false)]) ].

(** The one outbound request of a submission. *)
Definition recognition_request (env : environ) (img_bytes : list byte)
    : request :=
  Request (lit "https://api.mathpix.com/v3/text")
          (request_headers env)
          (data (b64encode img_bytes))
          15.

(** [response.json().get("text", "").strip()] *)
Definition latex_text (r : response) : result str :=
  match response_json r with
  | inl e => inl e
  | inr doc =>
      match py_get doc (lit "text") (JStr []) with
      | inl e => inl e
      | inr t => py_strip t
      end
  end.

(** [correct_answer if correct_answer else CORRECT_ANSWER] *)
Definition expected (correct_answer : option str) : str :=
  match correct_answer with
  | Some s => if truthy s then s else CORRECT_ANSWER
  | None => CORRECT_ANSWER
  end.

(** The two feedback templates of a completed comparison. *)
Definition feedback_for (is_correct : bool) : str :=
  if is_correct
  then lit "Correct! Well done."
  else lit "Incorrect. Check your factoring and try again.".

(** The body of the [try] block: the verdict and its feedback line. *)
Definition comparator (latex : str) (correct_answer : option str)
    : prog (raised + bool * str) :=
  student_expr <- may_raise (call (parse_latex latex)) ;;
  correct_expr <- call (sympify (expected correct_answer)) ;;
  difference <- may_raise (call (sub student_expr correct_expr)) ;;
  simplified <- may_raise (call (simplify difference)) ;;
  bind (call (eq_zero simplified)) (fun is_correct : bool =>
    Ret (inr (is_correct, feedback_for is_correct))).

Definition dev_mode_payload : json :=
  payload [] JNull
    (lit "Backend connected! Configure MathPix keys to enable real math recognition.").

Definition could_not_read_payload : json :=
  payload [] JNull
    (lit "Could not read your answer. Try writing more clearly.").

Definition submit_answer (env : environ) (img_bytes : list byte)
    (correct_answer : option str) : prog outcome :=
  if str_eqb (MATHPIX_APP_ID env) (lit "YOUR_APP_ID")
     || str_eqb (MATHPIX_APP_KEY env) (lit "YOUR_APP_KEY")
  then Ret (Returned 200 dev_mode_payload)
  else
    Call (requests_post (recognition_request env img_bytes)) (fun posted =>
      match posted with
      | inl e =>
          Ret (Returned 500
                 (JObj [(lit "error",
                         JStr (lit "Error calling MathPix: " ++ exn_str e))]))
      | inr response =>
          if negb (status_code response =? 200)%Z
          then
            Ret (Returned 500
                   (JObj [ (lit "error", JStr (lit "MathPix API error"));
                           (lit "details", JStr (text response)) ]))
          else
            match latex_text response with
            | inl e => Ret (Raised e)
            | inr latex =>
                if negb (truthy latex)
                then Ret (Returned 200 could_not_read_payload)
                else
                  bind (comparator latex correct_answer) (fun compared =>
                    match compared with
                    | inl (an_Exception e) =>
                        Ret (Returned 200
                               (payload latex JNull
                                  (lit "Error processing your answer: "
                                   ++ exn_str e)))
                    | inl (not_an_Exception e) => Ret (Raised e)
                    | inr (is_correct, feedback) =>
                        Ret (Returned 200
                               (payload latex (py_bool is_correct) feedback))
                    end)
            end
      end).

(** *** Running a program *)

(** A world answers every external call. *)
Definition world : Type := forall c : extcall, answer c.

(** The outcome of a program in a world, with the calls it issued, in
    order. *)
Fixpoint run {R : Type} (w : world) (p : prog R) : R * list extcall :=
  match p with
  | Ret r => (r, [])
  | Call c k =>
      let (r, log) := run w (k (w c)) in
      (r, c :: log)
  end.

Definition is_network (c : extcall) : bool :=
  match c with
  | requests_post _ => true
  | _ => false
  end.

(** Calls into the LaTeX parser and the algebra system. *)
Definition is_comparator (c : extcall) : bool := negb (is_network c).

Definition network_calls (log : list extcall) : list extcall :=
  filter is_network log.

Definition comparator_calls (log : list extcall) : list extcall :=
  filter is_comparator log.

(** The request gets as far as the comparator: credentials configured, the
    service answered 200 and [latex] is its transcription, stripped and not
    empty. *)
Definition reaches_comparator (env : environ) (w : world)
    (img_bytes : list byte) (latex : str) : Prop :=
  configured env = true /\
  exists r : response,
    w (requests_post (recognition_request env img_bytes)) = inr r /\
    status_code r = 200%Z /\
    latex_text r = inr latex /\
    latex <> [].

(** The comparison as the specification words it: both strings parse, and
    [simplify(recognized - expected) == 0] evaluates to [verdict]. *)
Definition simplified_difference_is_zero (w : world)
    (recognized expected_answer : str) (verdict : bool) : Prop :=
  exists student_expr correct_expr difference simplified : Obj,
    w (parse_latex recognized) = inr student_expr /\
    w (sympify expected_answer) = inr correct_expr /\
    w (sub student_expr correct_expr) = inr difference /\
    w (simplify difference) = inr simplified /\
    w (eq_zero simplified) = verdict.

(** Some step of the comparison raises [e], an instance of [Exception]:
    the first step that raises. *)
Definition comparison_raises (w : world)
    (recognized expected_answer : str) (e : exn) : Prop :=
  w (parse_latex recognized) = inl e \/
  exists student_expr : Obj,
    w (parse_latex recognized) = inr student_expr /\
    (w (sympify expected_answer) = inl (an_Exception e) \/
     exists correct_expr : Obj,
       w (sympify expected_answer) = inr correct_expr /\
       (w (sub student_expr correct_expr) = inl e \/
        exists difference : Obj,
          w (sub student_expr correct_expr) = inr difference /\
          w (simplify difference) = inl e)).

(** The five ways a submission can go. *)
Inductive branch (env : environ) (w : world) (img : list byte)
    (ans : option str) : outcome * list extcall -> Prop :=
| br_unconfigured :
    configured env = false ->
    branch env w img ans (Returned 200 dev_mode_payload, [])
| br_transport (e : exn) :
    configured env = true ->
    w (requests_post (recognition_request env img)) = inl e ->
    branch env w img ans
      (Returned 500
         (JObj [(lit "error",
                 JStr (lit "Error calling MathPix: " ++ exn_str e))]),
       [requests_post (recognition_request env img)])
| br_status (r : response) :
    configured env = true ->
    w (requests_post (recognition_request env img)) = inr r ->
    status_code r <> 200%Z ->
    branch env w img ans
      (Returned 500
         (JObj [ (lit "error", JStr (lit "MathPix API error"));
                 (lit "details", JStr (text r)) ]),
       [requests_post (recognition_request env img)])
| br_undecodable (r : response) (e : exn) :
    configured env = true ->
    w (requests_post (recognition_request env img)) = inr r ->
    status_code r = 200%Z ->
    latex_text r = inl e ->
    branch env w img ans
      (Raised e, [requests_post (recognition_request env img)])
| br_illegible (r : response) :
    configured env = true ->
    w (requests_post (recognition_request env img)) = inr r ->
    status_code r = 200%Z ->
    latex_text r = inr [] ->
    branch env w img ans
      (Returned 200 could_not_read_payload,
       [requests_post (recognition_request env img)])
| br_compared (latex : str) :
    reaches_comparator env w img latex ->
    branch env w img ans
      (match fst (run w (comparator latex ans)) with
       | inl (an_Exception e) =>
           Returned 200
             (payload latex JNull
                (lit "Error processing your answer: " ++ exn_str e))
       | inl (not_an_Exception e) => Raised e
       | inr (is_correct, feedback) =>
           Returned 200 (payload latex (py_bool is_correct) feedback)
       end,
       requests_post (recognition_request env img)
       :: snd (run w (comparator latex ans))).

(** [sympify] ends in an exception that is no instance of [Exception],
    after the transcription has parsed. *)
Definition sympify_exits (w : world)
    (recognized expected_answer : str) (e : exn) : Prop :=
  exists student_expr : Obj,
    w (parse_latex recognized) = inr student_expr /\
    w (sympify expected_answer) = inl (not_an_Exception e).

(** The answer of the service, when it has status 200, decodes to a
    transcription. *)
Definition answer_decodes (env : environ) (w : world) (img : list byte)
    : Prop :=
  forall r : response,
    w (requests_post (recognition_request env img)) = inr r ->
    status_code r = 200%Z ->
    exists latex : str, latex_text r = inr latex.

End Handler.

Arguments Ret {Obj R} r.
Arguments Call {Obj R} c k.
Arguments requests_post {Obj} rq.
Arguments parse_latex {Obj} s.
Arguments sympify {Obj} s.
Arguments sub {Obj} a b.
Arguments simplify {Obj} a.
Arguments eq_zero {Obj} a.
Arguments answer {Obj} c.
Arguments bind {Obj A B} p f.
Arguments call {Obj} c.
Arguments comparator {Obj} latex correct_answer.
Arguments submit_answer {Obj} env img_bytes correct_answer.
Arguments run {Obj R} w p.
Arguments is_network {Obj} c.
Arguments is_comparator {Obj} c.
Arguments network_calls {Obj} log.
Arguments comparator_calls {Obj} log.
Arguments reaches_comparator {Obj} env w img_bytes latex.
Arguments simplified_difference_is_zero {Obj} w recognized expected_answer verdict.
Arguments comparison_raises {Obj} w recognized expected_answer e.
Arguments sympify_exits {Obj} w recognized expected_answer e.
Arguments answer_decodes {Obj} env w img.
Arguments may_raise {Obj A} p.
Arguments branch {Obj} env w img ans _.
Arguments br_unconfigured {Obj} env w img ans _.
Arguments br_transport {Obj} env w img ans e _ _.
Arguments br_status {Obj} env w img ans r _ _ _.
Arguments br_undecodable {Obj} env w img ans r e _ _ _ _.
Arguments br_illegible {Obj} env w img ans r _ _ _ _.
Arguments br_compared {Obj} env w img ans latex _.

(** ** A small algebra system to run the handler against

    Polynomials in [x] with integer coefficients, constant term first; the
    two parsers know a handful of spellings. *)

Module Demo.

Definition Obj : Type := list Z.

Fixpoint poly_sub (p q : list Z) : list Z :=
  match p, q with
  | [], _ => map Z.opp q
  | _, [] => p
  | a :: p', b :: q' => (a - b)%Z :: poly_sub p' q'
  end.

(** Drop the zero coefficients of highest degree. *)
Fixpoint normalise (p : list Z) : list Z :=
  match p with
  | [] => []
  | a :: p' =>
      match normalise p' with
      | [] => if (a =? 0)%Z then [] else [a]
      | n => a :: n
      end
  end.

Definition is_nil (p : list Z) : bool :=
  match p with
  | [] => true
  | _ :: _ => false
  end.

Definition latex_table (s : str) : result Obj :=
  if str_eqb s (lit "(x+1)^2") then inr [1; 2; 1]%Z
  else if str_eqb s (lit "x^2+2x+1") then inr [1; 2; 1]%Z
  else if str_eqb s (lit "x^2+1") then inr [1; 0; 1]%Z
  else if str_eqb s (lit "1") then inr [1]%Z
  else inl (Exn (lit "LaTeXParsingError") (lit "I don't understand this")).

(** What [exit()] raises when it is evaluated. *)
Definition system_exit : exn := Exn (lit "SystemExit") (lit "None").

Definition sympify_table (s : str) : raised + Obj :=
  if str_eqb s (lit "(x + 1)**2") then inr [1; 2; 1]%Z
  else if str_eqb s (lit "x**2 + 1") then inr [1; 0; 1]%Z
  else if str_eqb s (lit "exit()") then inl (not_an_Exception system_exit)
  else inl (an_Exception (Exn (lit "SympifyError") (lit "could not parse"))).

(** The world in which the recognition service behaves as [service] and
    [sympify] as [evaluate]. *)
Definition world_of (service : request -> result response)
    (evaluate : str -> raised + Obj) : world Obj :=
  fun c =>
    match c return answer c with
    | requests_post rq => service rq
    | parse_latex s => latex_table s
    | sympify s => evaluate s
    | sub a b => inr (poly_sub a b)
    | simplify a => inr (normalise a)
    | eq_zero a => is_nil a
    end.

(** The world in which the recognition service behaves as [service]. *)
Definition demo_world (service : request -> result response) : world Obj :=
  world_of service sympify_table.

(** An expected answer that draws a number when it is evaluated, and the
    evaluation in an execution where [drawn] comes out. *)
Definition coin_flip : str := lit "__import__('random').randint(0, 1)".

Definition evaluate_with_coin (drawn : Z) (s : str) : raised + Obj :=
  if str_eqb s coin_flip then inr [drawn] else sympify_table s.

Definition configured_env : environ :=
  Environ (Some (lit "my_app")) (Some (lit "my_key")).

(** A PNG signature and a JPEG signature, as image payloads. *)
Definition png_bytes : list byte := [x89; x50; x4e; x47].
Definition jpeg_bytes : list byte := [xff; xd8; xff; xe0].

(** The service transcribes every image as [body_text]. *)
Definition transcribes (body_text : str) : request -> result response :=
  fun _ => inr (Response 200 [] (inr (JObj [(lit "text", JStr body_text)]))).

Definition connection_error : exn :=
  Exn (lit "ConnectionError") (lit "Max retries exceeded").

Definition unreachable : request -> result response :=
  fun _ => inl connection_error.

Definition json_decode_error : exn :=
  Exn (lit "JSONDecodeError") (lit "Expecting value: line 1 column 1 (char 0)").

Definition unauthorized : request -> result response :=
  fun _ => inr (Response 401 (lit "Unauthorized")
                  (inl json_decode_error)).

(** A gateway answers 200 with an HTML page instead of a JSON document. *)
Definition html_page : request -> result response :=
  fun _ => inr (Response 200 (lit "<html>Bad Gateway</html>")
                  (inl json_decode_error)).

(** A service that transcribes only what is posted to the recognition
    endpoint and is unreachable anywhere else. *)
Definition endpoint_only (body_text : str) : request -> result response :=
  fun rq =>
    if str_eqb (url rq) (lit "https://api.mathpix.com/v3/text")
    then transcribes body_text rq
    else unreachable rq.

End Demo.

(** ** Reading the request back *)

(** The place of a character in the base64 alphabet. *)
Definition b64_index (c : N) : option N :=
  if (65 <=? c) && (c <=? 90) then Some (c - 65)
  else if (97 <=? c) && (c <=? 122) then Some (c - 71)
  else if (48 <=? c) && (c <=? 57) then Some (c + 4)
  else if c =? 43 then Some 62
  else if c =? 47 then Some 63
  else None.

(** Four characters back to three bytes; padding may only end the text. *)
Fixpoint b64_ungroup (s : str) : option (list N) :=
  match s with
  | [] => Some []
  | c1 :: c2 :: c3 :: c4 :: r =>
      match b64_index c1, b64_index c2 with
      | Some s1, Some s2 =>
          let b1 := N.lor (N.shiftl s1 2) (N.shiftr s2 4) in
          if (c3 =? b64_pad) && (c4 =? b64_pad)
          then match r with [] => Some [b1] | _ => None end
          else
            match b64_index c3 with
            | Some s3 =>
                let b2 := N.lor (N.shiftl (N.land s2 15) 4) (N.shiftr s3 2) in
                if c4 =? b64_pad
                then match r with [] => Some [b1; b2] | _ => None end
                else
                  match b64_index c4, b64_ungroup r with
                  | Some s4, Some bs =>
                      Some (b1 :: b2
                            :: N.lor (N.shiftl (N.land s3 3) 6) s4 :: bs)
                  | _, _ => None
                  end
            | None => None
            end
      | _, _ => None
      end
  | _ => None
  end.

Fixpoint bytes_of (ns : list N) : option (list byte) :=
  match ns with
  | [] => Some []
  | n :: r =>
      match Byte.of_N n, bytes_of r with
      | Some b, Some bs => Some (b :: bs)
      | _, _ => None
      end
  end.

(** Reading an encoded text back, strictly: groups of four characters of
    the alphabet, padding only at the end.  The receiver of [src] does this
    with the text after the media-type prefix; here it serves to state
    that [b64encode] loses nothing. *)
Definition b64decode (s : str) : option (list byte) :=
  match b64_ungroup s with
  | Some ns => bytes_of ns
  | None => None
  end.

(** The numbers below [n], to check a property of bytes or sextets on all
    of them. *)
Definition below (n : nat) : list N := map N.of_nat (seq 0 n).

(** The place of a call in the pipeline of a submission. *)
Definition call_rank {Obj : Type} (c : extcall Obj) : nat :=
  match c with
  | requests_post _ => 0
  | parse_latex _ => 1
  | sympify _ => 2
  | sub _ _ => 3
  | simplify _ => 4
  | eq_zero _ => 5
  end.

(** A string with no white space at either end. *)
Definition trimmed (s : str) : Prop :=
  (forall c r, s = c :: r -> isspace c = false) /\
  (forall c r, s = r ++ [c] -> isspace c = false).

(** * Properties *)

(** ** Strings *)

Lemma str_eqb_refl (s : str) : str_eqb s s = true.
Proof.
  induction s as [|c s IH]; simpl; [reflexivity|].
  now rewrite N.eqb_refl, IH.
Qed.

Lemma str_eqb_eq (a b : str) : str_eqb a b = true <-> a = b.
Proof.
  split; [|intros ->; apply str_eqb_refl].
  revert b; induction a as [|x a IH]; intros [|y b]; simpl;
    try discriminate; [reflexivity|].
  intros H; apply andb_prop in H as [Hx Hab].
  apply N.eqb_eq in Hx; subst y.
  now rewrite (IH b Hab).
Qed.

Lemma lstrip_nil_iff (s : str) : lstrip s = [] <-> forallb isspace s = true.
Proof.
  induction s as [|c s IH]; simpl; [tauto|].
  destruct (isspace c); simpl; [exact IH|].
  split; discriminate.
Qed.

(** Stripping leaves nothing exactly when the string holds white space
    only. *)
Lemma strip_nil_iff (s : str) : strip s = [] <-> forallb isspace s = true.
Proof.
  unfold strip, rstrip; split.
  - intros H.
    destruct (forallb isspace s) eqn:E; [reflexivity|exfalso].
    assert (Hl : lstrip s <> []).
    { intros Hn; apply lstrip_nil_iff in Hn; congruence. }
    assert (Hr : lstrip (rev (lstrip s)) = []).
    { apply (f_equal (@rev N)) in H; rewrite rev_involutive in H; exact H. }
    clear H E; induction s as [|c s IH]; simpl in *; [congruence|].
    destruct (isspace c) eqn:Ec; [now apply IH|].
    simpl in Hr; rewrite lstrip_nil_iff, forallb_app in Hr.
    simpl in Hr; rewrite Ec in Hr.
    rewrite andb_false_r in Hr; discriminate.
  - intros H; apply lstrip_nil_iff in H; rewrite H; reflexivity.
Qed.

(** ** Running programs *)

Section Properties.

Context {Obj : Type}.
Implicit Types (w : world Obj) (env : environ) (img : list byte)
  (ans : option str).

Lemma run_bind {A B : Type} w (p : prog Obj A) (f : A -> prog Obj B) :
  run w (bind p f) =
  (fst (run w (f (fst (run w p)))),
   snd (run w p) ++ snd (run w (f (fst (run w p))))).
Proof.
  induction p as [a|c k IH]; simpl.
  - now destruct (run w (f a)).
  - rewrite IH.
    destruct (run w (k (w c))) as [a l]; simpl.
    reflexivity.
Qed.

(** Two worlds that answer alike every call the program issues in the
    first one take the program to the same outcome through the same
    calls. *)
Lemma run_agree {R : Type} w1 w2 (p : prog Obj R) :
  (forall c, In c (snd (run w1 p)) -> w1 c = w2 c) ->
  run w1 p = run w2 p.
Proof.
  induction p as [r|c k IH]; simpl; intros H; [reflexivity|].
  assert (Hc : w1 c = w2 c).
  { apply H. destruct (run w1 (k (w1 c))); simpl; now left. }
  rewrite <- Hc.
  rewrite <- (IH (w1 c)); [reflexivity|].
  intros c' Hin; apply H.
  destruct (run w1 (k (w1 c))); simpl in *; now right.
Qed.

Lemma configured_true env :
  configured env = true ->
  str_eqb (MATHPIX_APP_ID env) (lit "YOUR_APP_ID")
  || str_eqb (MATHPIX_APP_KEY env) (lit "YOUR_APP_KEY") = false.
Proof. unfold configured; intros H; now apply negb_true_iff in H. Qed.

(** The calls of the [try] block, one after the other, up to the first
    that raises. *)
Lemma run_comparator w latex ans :
  run w (comparator latex ans) =
  match w (parse_latex latex) with
  | inl e => (inl (an_Exception e), [parse_latex latex])
  | inr student_expr =>
    match w (sympify (expected ans)) with
    | inl e => (inl e, [parse_latex latex; sympify (expected ans)])
    | inr correct_expr =>
      match w (sub student_expr correct_expr) with
      | inl e =>
          (inl (an_Exception e),
           [parse_latex latex; sympify (expected ans);
            sub student_expr correct_expr])
      | inr difference =>
        match w (simplify difference) with
        | inl e =>
            (inl (an_Exception e),
             [parse_latex latex; sympify (expected ans);
              sub student_expr correct_expr; simplify difference])
        | inr simplified =>
            (inr (w (eq_zero simplified),
                  feedback_for (w (eq_zero simplified))),
             [parse_latex latex; sympify (expected ans);
              sub student_expr correct_expr; simplify difference;
              eq_zero simplified])
        end
      end
    end
  end.
Proof.
  unfold comparator, try_bind, may_raise, call; simpl.
  destruct (w (parse_latex latex)) as [e|s]; simpl; [reflexivity|].
  destruct (w (sympify (expected ans))) as [e|c]; simpl; [reflexivity|].
  destruct (w (sub s c)) as [e|d]; simpl; [reflexivity|].
  destruct (w (simplify d)) as [e|z]; simpl; reflexivity.
Qed.

(** A request that reaches the comparator: one recognition call, then the
    [try] block, then one of the two 200 responses, or the exception the
    [except] clause lets through. *)
Lemma run_reaches env w img ans latex :
  reaches_comparator env w img latex ->
  run w (submit_answer env img ans) =
  (match fst (run w (comparator latex ans)) with
   | inl (an_Exception e) =>
       Returned 200
         (payload latex JNull
            (lit "Error processing your answer: " ++ exn_str e))
   | inl (not_an_Exception e) => Raised e
   | inr (is_correct, feedback) =>
       Returned 200 (payload latex (py_bool is_correct) feedback)
   end,
   requests_post (recognition_request env img)
   :: snd (run w (comparator latex ans))).
Proof.
  intros [Hc (r & Hpost & Hst & Hlatex & Hne)].
  unfold submit_answer.
  rewrite (configured_true env Hc).
  cbn [run]. rewrite Hpost, Hst, Hlatex.
  destruct latex as [|c latex]; [congruence|].
  cbn [negb Z.eqb Pos.eqb truthy].
  rewrite run_bind.
  destruct (run w (comparator (c :: latex) ans)) as [[[e|e]|[b f]] log];
    cbn [fst snd run]; now rewrite app_nil_r.
Qed.

Lemma correct_field_payload (st : Z) (latex : str) (c : json) (f : str) :
  correct_field (Returned st (payload latex c f)) = Some c.
Proof. reflexivity. Qed.

(** ** The comparator *)

(** Identify the answers a world gave to the same call. *)
Ltac same_answers :=
  repeat match goal with
  | H : inl _ = inr _ |- _ => discriminate H
  | H : inr _ = inl _ |- _ => discriminate H
  | H : inr _ = inr _ |- _ => injection H as <-
  | H : inl _ = inl _ |- _ => first [discriminate H|injection H as <-]
  | H1 : ?w ?c = _, H2 : ?w ?c = _ |- _ => rewrite H1 in H2
  end.

(** The [try] block ends with a verdict exactly when every step
    succeeds. *)
Lemma comparator_verdict w latex ans (b : bool) (f : str) :
  fst (run w (comparator latex ans)) = inr (b, f) <->
  simplified_difference_is_zero w latex (expected ans) b /\
  f = feedback_for b.
Proof.
  rewrite run_comparator; unfold simplified_difference_is_zero.
  destruct (w (parse_latex latex)) as [e|s] eqn:Es.
  { split; [discriminate|]. intros [(? & ? & ? & ? & H & _) _]; discriminate. }
  destruct (w (sympify (expected ans))) as [e|c] eqn:Ec.
  { split; [discriminate|].
    intros [(? & ? & ? & ? & _ & H & _) _]; discriminate. }
  destruct (w (sub s c)) as [e|d] eqn:Ed.
  { split; [discriminate|].
    intros [(s' & c' & ? & ? & Hs & Hc & H & _) _]; same_answers. }
  destruct (w (simplify d)) as [e|z] eqn:Ez.
  { split; [discriminate|].
    intros [(s' & c' & d' & ? & Hs & Hc & Hd & H & _) _]; same_answers. }
  cbn [fst]; split.
  - intros H; injection H as Hb Hf.
    split; [exists s, c, d, z; auto|].
    now rewrite <- Hf, Hb.
  - intros [(s' & c' & d' & z' & Hs & Hc & Hd & Hz & H) ->].
    same_answers. now rewrite H.
Qed.

(** The [try] block ends in the exception of the first step that
    raises; it is an instance of [Exception] in these cases. *)
Lemma comparator_raises w latex ans (e : exn) :
  fst (run w (comparator latex ans)) = inl (an_Exception e) <->
  comparison_raises w latex (expected ans) e.
Proof.
  rewrite run_comparator; unfold comparison_raises.
  destruct (w (parse_latex latex)) as [e0|s] eqn:Es.
  { cbn [fst]; split.
    - intros H; injection H as <-; now left.
    - intros [H|(? & H & _)]; same_answers; reflexivity. }
  destruct (w (sympify (expected ans))) as [[e0|e0]|c] eqn:Ec.
  { cbn [fst]; split.
    - intros H; injection H as <-.
      right; exists s; split; [reflexivity|]. now left.
    - intros [H|(s' & Hs & [H|(? & H & _)])]; same_answers; reflexivity. }
  { cbn [fst]; split; [discriminate|].
    intros [H|(s' & Hs & [H|(? & H & _)])]; same_answers. }
  destruct (w (sub s c)) as [e0|d] eqn:Ed.
  { cbn [fst]; split.
    - intros H; injection H as <-.
      right; exists s; split; [reflexivity|].
      right; exists c; split; [reflexivity|]. now left.
    - intros [H|(s' & Hs & [H|(c' & Hc & [H|(? & H & _)])])];
        same_answers; reflexivity. }
  destruct (w (simplify d)) as [e0|z] eqn:Ez.
  { cbn [fst]; split.
    - intros H; injection H as <-.
      right; exists s; split; [reflexivity|].
      right; exists c; split; [reflexivity|].
      right; exists d; split; assumption.
    - intros [H|(s' & Hs & [H|(c' & Hc & [H|(d' & Hd & H)])])];
        same_answers; reflexivity. }
  cbn [fst]; split; [discriminate|].
  intros [H|(s' & Hs & [H|(c' & Hc & [H|(d' & Hd & H)])])];
    same_answers.
Qed.

(** The [try] block lets an exception through exactly when [sympify]
    raises one that is no instance of [Exception]. *)
Lemma comparator_exits w latex ans (e : exn) :
  fst (run w (comparator latex ans)) = inl (not_an_Exception e) <->
  sympify_exits w latex (expected ans) e.
Proof.
  rewrite run_comparator; unfold sympify_exits.
  destruct (w (parse_latex latex)) as [e0|s] eqn:Es.
  { cbn [fst]; split; [discriminate|].
    intros (? & H & _); discriminate. }
  destruct (w (sympify (expected ans))) as [[e0|e0]|c] eqn:Ec.
  - cbn [fst]; split; [discriminate|].
    intros (? & _ & H); discriminate.
  - cbn [fst]; split.
    + intros H; injection H as <-. exists s; auto.
    + intros (? & _ & H); now injection H as <-.
  - split.
    + destruct (w (sub s c)) as [e0|d]; [discriminate|].
      destruct (w (simplify d)) as [e0|z]; discriminate.
    + intros (? & _ & H); discriminate.
Qed.

(** [sympify] is only ever called on the expected string, [parse_latex]
    only on the transcription. *)
Lemma comparator_log w latex ans :
  forall c, In c (snd (run w (comparator latex ans))) ->
    match c with
    | requests_post _ => False
    | parse_latex s => s = latex
    | sympify s => s = expected ans
    | _ => True
    end.
Proof.
  intros c0 H; rewrite run_comparator in H.
  destruct (w (parse_latex latex)) as [e|s].
  { simpl in H; intuition subst; reflexivity. }
  destruct (w (sympify (expected ans))) as [e|c].
  { simpl in H; intuition subst; reflexivity. }
  destruct (w (sub s c)) as [e|d].
  { simpl in H; intuition subst; try reflexivity; exact I. }
  destruct (w (simplify d)) as [e|z];
    simpl in H; intuition subst; try reflexivity; exact I.
Qed.

Lemma comparator_log_head w latex ans :
  exists rest, snd (run w (comparator latex ans)) = parse_latex latex :: rest.
Proof.
  rewrite run_comparator.
  destruct (w (parse_latex latex)) as [e|s]; [eexists; reflexivity|].
  destruct (w (sympify (expected ans))) as [e|c]; [eexists; reflexivity|].
  destruct (w (sub s c)) as [e|d]; [eexists; reflexivity|].
  destruct (w (simplify d)) as [e|z]; eexists; reflexivity.
Qed.

(** C1. For every request that reaches the comparator, the recognized
    string is what the LaTeX parser is given (the first comparator call),
    [sympify] is only ever given the expected string (the caller's value
    when it has one, the default [(x + 1)**2] otherwise), and the [correct]
    field of the response is [true] exactly when both strings parse and
    [simplify(recognized - expected) == 0] holds, [false] exactly when they
    parse and it does not. *)
Theorem correct_iff_simplified_difference_is_zero env w img ans latex :
  reaches_comparator env w img latex ->
  let out := fst (run w (submit_answer env img ans)) in
  let log := snd (run w (submit_answer env img ans)) in
  hd_error (comparator_calls log) = Some (parse_latex latex) /\
  (forall s, In (sympify s) log -> s = expected ans) /\
  expected ans =
    match ans with
    | Some (c :: s) => c :: s
    | _ => CORRECT_ANSWER
    end /\
  forall verdict : bool,
    correct_field out = Some (JBool verdict) <->
    simplified_difference_is_zero w latex (expected ans) verdict.
Proof.
  intros Hreach out log; subst out log.
  rewrite (run_reaches env w img ans latex Hreach); cbn [fst snd].
  split; [|split; [|split]].
  - destruct (comparator_log_head w latex ans) as [rest ->]; reflexivity.
  - intros s [H|H]; [discriminate|].
    exact (comparator_log w latex ans _ H).
  - destruct ans as [[|c s]|]; reflexivity.
  - intros verdict.
    destruct (fst (run w (comparator latex ans))) as [[e|e]|[b f]] eqn:E.
    + rewrite correct_field_payload; split; [discriminate|].
      intros H.
      assert (Hv : fst (run w (comparator latex ans))
                   = inr (verdict, feedback_for verdict))
        by (apply comparator_verdict; auto).
      congruence.
    + cbn [correct_field]; split; [discriminate|].
      intros H.
      assert (Hv : fst (run w (comparator latex ans))
                   = inr (verdict, feedback_for verdict))
        by (apply comparator_verdict; auto).
      congruence.
    + rewrite correct_field_payload; unfold py_bool.
      apply comparator_verdict in E as [Hz _].
      split.
      * intros H; injection H as <-; exact Hz.
      * intros H.
        assert (Hv : fst (run w (comparator latex ans))
                     = inr (verdict, feedback_for verdict))
          by (apply comparator_verdict; auto).
        assert (Hb : fst (run w (comparator latex ans))
                     = inr (b, feedback_for b))
          by (apply comparator_verdict; auto).
        congruence.
Qed.


(** ** The branches of the handler *)

Lemma configured_cases env :
  configured env = true \/
  str_eqb (MATHPIX_APP_ID env) (lit "YOUR_APP_ID")
  || str_eqb (MATHPIX_APP_KEY env) (lit "YOUR_APP_KEY") = true.
Proof.
  unfold configured.
  destruct (str_eqb (MATHPIX_APP_ID env) (lit "YOUR_APP_ID")
            || str_eqb (MATHPIX_APP_KEY env) (lit "YOUR_APP_KEY"));
    [now right|now left].
Qed.

Lemma run_unconfigured env w img ans :
  str_eqb (MATHPIX_APP_ID env) (lit "YOUR_APP_ID")
  || str_eqb (MATHPIX_APP_KEY env) (lit "YOUR_APP_KEY") = true ->
  run w (submit_answer env img ans) = (Returned 200 dev_mode_payload, []).
Proof. intros H; unfold submit_answer; now rewrite H. Qed.

Lemma run_transport_error env w img ans (e : exn) :
  configured env = true ->
  w (requests_post (recognition_request env img)) = inl e ->
  run w (submit_answer env img ans) =
  (Returned 500
     (JObj [(lit "error",
             JStr (lit "Error calling MathPix: " ++ exn_str e))]),
   [requests_post (recognition_request env img)]).
Proof.
  intros Hc Hpost; unfold submit_answer.
  rewrite (configured_true env Hc); cbn [run].
  now rewrite Hpost.
Qed.

Lemma run_bad_status env w img ans (r : response) :
  configured env = true ->
  w (requests_post (recognition_request env img)) = inr r ->
  status_code r <> 200%Z ->
  run w (submit_answer env img ans) =
  (Returned 500
     (JObj [ (lit "error", JStr (lit "MathPix API error"));
             (lit "details", JStr (text r)) ]),
   [requests_post (recognition_request env img)]).
Proof.
  intros Hc Hpost Hst; unfold submit_answer.
  rewrite (configured_true env Hc); cbn [run].
  rewrite Hpost.
  apply Z.eqb_neq in Hst; now rewrite Hst.
Qed.

Lemma run_undecodable env w img ans (r : response) (e : exn) :
  configured env = true ->
  w (requests_post (recognition_request env img)) = inr r ->
  status_code r = 200%Z ->
  latex_text r = inl e ->
  run w (submit_answer env img ans) =
  (Raised e, [requests_post (recognition_request env img)]).
Proof.
  intros Hc Hpost Hst Hlatex; unfold submit_answer.
  rewrite (configured_true env Hc); cbn [run].
  now rewrite Hpost, Hst, Hlatex.
Qed.

Lemma run_illegible env w img ans (r : response) :
  configured env = true ->
  w (requests_post (recognition_request env img)) = inr r ->
  status_code r = 200%Z ->
  latex_text r = inr [] ->
  run w (submit_answer env img ans) =
  (Returned 200 could_not_read_payload,
   [requests_post (recognition_request env img)]).
Proof.
  intros Hc Hpost Hst Hlatex; unfold submit_answer.
  rewrite (configured_true env Hc); cbn [run].
  now rewrite Hpost, Hst, Hlatex.
Qed.

(** Every run of the handler takes one of them. *)
Lemma run_branch env w img ans :
  branch env w img ans (run w (submit_answer env img ans)).
Proof.
  destruct (configured_cases env) as [Hc|Hu].
  2:{ rewrite (run_unconfigured env w img ans Hu).
      constructor. unfold configured; now rewrite Hu. }
  destruct (w (requests_post (recognition_request env img))) as [e|r] eqn:Ep.
  { rewrite (run_transport_error env w img ans e Hc Ep).
    now constructor. }
  destruct (Z.eq_dec (status_code r) 200) as [Hst|Hst].
  2:{ rewrite (run_bad_status env w img ans r Hc Ep Hst).
      now constructor. }
  destruct (latex_text r) as [e|latex] eqn:El.
  { rewrite (run_undecodable env w img ans r e Hc Ep Hst El).
    now apply (br_undecodable env w img ans r e). }
  destruct latex as [|ch latex].
  { rewrite (run_illegible env w img ans r Hc Ep Hst El).
    now apply (br_illegible env w img ans r). }
  assert (Hreach : reaches_comparator env w img (ch :: latex)).
  { split; [exact Hc|]. exists r; repeat split; auto; discriminate. }
  rewrite (run_reaches env w img ans _ Hreach).
  now constructor.
Qed.

(** The call log of a submission: recognition requests carry the one
    request of the handler, the parser gets the transcription and
    [sympify] the expected string. *)
Lemma submit_answer_log env w img ans :
  forall c, In c (snd (run w (submit_answer env img ans))) ->
    match c with
    | requests_post rq => rq = recognition_request env img
    | sympify s => s = expected ans
    | _ => True
    end.
Proof.
  intros c.
  destruct (run_branch env w img ans) as
    [Hu|e Hc Ep|r Hc Ep Hst|r e Hc Ep Hst El|r Hc Ep Hst El|latex Hreach];
    cbn [snd].
  1: intros [].
  1-4: intros [<-|[]]; reflexivity.
  intros [<-|Hin]; [reflexivity|].
  apply comparator_log in Hin.
  destruct c; auto; contradiction.
Qed.

(** ** Credential gating *)

(** C3. If either credential is unset or still equal to its placeholder,
    the handler issues no call at all, network or otherwise, and returns
    the fixed dev-mode payload with status 200, whatever the image and the
    expected answer. *)
Theorem unconfigured_returns_dev_mode_payload env w img ans :
  env_MATHPIX_APP_ID env = None \/
  env_MATHPIX_APP_ID env = Some (lit "YOUR_APP_ID") \/
  env_MATHPIX_APP_KEY env = None \/
  env_MATHPIX_APP_KEY env = Some (lit "YOUR_APP_KEY") ->
  run w (submit_answer env img ans) = (Returned 200 dev_mode_payload, []) /\
  network_calls (snd (run w (submit_answer env img ans))) = [].
Proof.
  intros H.
  assert (E : run w (submit_answer env img ans)
              = (Returned 200 dev_mode_payload, [])).
  { apply run_unconfigured; unfold MATHPIX_APP_ID, MATHPIX_APP_KEY.
    destruct H as [H|[H|[H|H]]]; rewrite H; cbn [getenv];
      rewrite str_eqb_refl, ?orb_true_r; reflexivity. }
  rewrite E; split; reflexivity.
Qed.

(** ** The recognition call *)

(** The transcription is empty exactly when the decoded document is an
    object whose [text], if any, is a string of white space. *)
Lemma latex_text_empty (r : response) :
  latex_text r = inr [] <->
  exists members,
    response_json r = inr (JObj members) /\
    (lookup (lit "text") members = None \/
     exists t, lookup (lit "text") members = Some (JStr t) /\
               forallb isspace t = true).
Proof.
  unfold latex_text, py_get, py_strip.
  destruct (response_json r) as [e|doc].
  { split; [discriminate|]. intros (? & H & _); discriminate. }
  destruct doc as [| | | |items|members];
    try (split; [discriminate|intros (? & H & _); discriminate]).
  destruct (lookup (lit "text") members) as [v|] eqn:El.
  - destruct v as [| | |t| |];
      try (split; [discriminate|];
           intros (m & Hm & [H|(t & H & _)]);
           injection Hm as <-; rewrite El in H; discriminate).
    split.
    + intros H; injection H as H. apply strip_nil_iff in H.
      exists members; split; [reflexivity|]. right; exists t; auto.
    + intros (m & Hm & [H|(t' & H & Ht)]); injection Hm as <-;
        rewrite El in H; [discriminate|].
      injection H as <-. apply strip_nil_iff in Ht. now rewrite Ht.
  - split.
    + intros _; exists members; auto.
    + intros _; reflexivity.
Qed.

(** C4. When the service answers 200 with a document whose [text] is
    missing, empty or white space only, so that the transcription is empty
    once stripped, the handler returns status 200 with the could-not-read
    payload ([latex] empty, [correct] null), whatever the expected answer,
    after the recognition call alone: the comparator is not called. *)
Theorem empty_transcription_is_could_not_read
    env w img ans (r : response) (members : list (str * json)) :
  configured env = true ->
  w (requests_post (recognition_request env img)) = inr r ->
  status_code r = 200%Z ->
  response_json r = inr (JObj members) ->
  (lookup (lit "text") members = None \/
   exists t, lookup (lit "text") members = Some (JStr t) /\
             strip t = []) ->
  run w (submit_answer env img ans) =
    (Returned 200 could_not_read_payload,
     [requests_post (recognition_request env img)]) /\
  correct_field (fst (run w (submit_answer env img ans))) = Some JNull /\
  comparator_calls (snd (run w (submit_answer env img ans))) = [].
Proof.
  intros Hc Hpost Hst Hdoc Htext.
  assert (Hlatex : latex_text r = inr []).
  { apply latex_text_empty; exists members; split; [exact Hdoc|].
    destruct Htext as [H|(t & H & Ht)]; [now left|right].
    exists t; split; [exact H|]. now apply strip_nil_iff. }
  rewrite (run_illegible env w img ans r Hc Hpost Hst Hlatex).
  repeat split.
Qed.


(** ** The response contract *)


(** An exception leaves the handler in two cases: the service answers 200
    and its body does not decode to an object whose [text] is a string,
    or [sympify] raises what [except Exception] does not catch. *)
Lemma raised_iff env w img ans (e : exn) :
  fst (run w (submit_answer env img ans)) = Raised e <->
  (configured env = true /\
   exists r : response,
     w (requests_post (recognition_request env img)) = inr r /\
     status_code r = 200%Z /\
     latex_text r = inl e)
  \/
  (exists latex : str,
     reaches_comparator env w img latex /\
     sympify_exits w latex (expected ans) e).
Proof.
  split.
  - destruct (run_branch env w img ans) as
      [Hu|e0 Hc Ep|r Hc Ep Hst|r e0 Hc Ep Hst El|r Hc Ep Hst El|latex Hreach];
      cbn [fst]; try discriminate.
    + intros H; injection H as ->.
      left; split; [exact Hc|]. exists r; auto.
    + destruct (fst (run w (comparator latex ans))) as [[e0|e0]|[? ?]] eqn:E;
        try discriminate.
      intros H; injection H as ->.
      right; exists latex; split; [exact Hreach|].
      now apply comparator_exits.
  - intros [[Hc (r & Ep & Hst & El)]|(latex & Hreach & Hexit)].
    + now rewrite (run_undecodable env w img ans r e Hc Ep Hst El).
    + apply comparator_exits in Hexit.
      rewrite (run_reaches env w img ans latex Hreach); cbn [fst].
      now rewrite Hexit.
Qed.

(** ** Determinism *)


(** ** The expected answer *)

(** C9. An expected answer supplied as the empty string is handled as an
    omitted one: the expected string is the default [(x + 1)**2], the
    handler is the same program and so ends in the same response after the
    same calls, [sympify] is never given the empty string, and whenever
    the request reaches the comparator and the transcription parses, the
    call that follows the parser is [sympify] on the default. *)
Theorem empty_expected_answer_is_default env w img :
  expected (Some []) = CORRECT_ANSWER /\
  expected None = CORRECT_ANSWER /\
  CORRECT_ANSWER = lit "(x + 1)**2" /\
  run w (submit_answer env img (Some []))
    = run w (submit_answer env img None) /\
  (forall s, In (sympify s) (snd (run w (submit_answer env img (Some []))))
             -> s = CORRECT_ANSWER /\ s <> []) /\
  (forall (latex : str) (student_expr : Obj),
     reaches_comparator env w img latex ->
     w (parse_latex latex) = inr student_expr ->
     exists rest,
       snd (run w (submit_answer env img (Some [])))
       = requests_post (recognition_request env img)
         :: parse_latex latex :: sympify (lit "(x + 1)**2") :: rest).
Proof.
  split; [reflexivity|]. split; [reflexivity|]. split; [reflexivity|].
  split; [reflexivity|]. split.
  - intros s H; split.
    + apply (submit_answer_log env w img (Some []) (sympify s) H).
    + rewrite (submit_answer_log env w img (Some []) (sympify s) H).
      discriminate.
  - intros latex student_expr Hreach Hparse.
    rewrite (run_reaches env w img (Some []) latex Hreach); cbn [snd].
    rewrite run_comparator, Hparse.
    change (expected (Some [])) with (lit "(x + 1)**2").
    destruct (w (sympify (lit "(x + 1)**2"))) as [e|c];
      [eexists; reflexivity|].
    destruct (w (sub student_expr c)) as [e|d]; [eexists; reflexivity|].
    destruct (w (simplify d)) as [e|z]; eexists; reflexivity.
Qed.

(** ** The outbound request *)

(** C10. With credentials configured the handler's first call, and its
    only network call, is a recognition request whose JSON body has as
    [src] the prefix [data:image/png;base64,] followed by the base64
    encoding of the image bytes, whatever those bytes are, and as
    [formats] the one-element list [["text"]]. *)
Theorem recognition_request_labels_png env w img ans :
  configured env = true ->
  exists (rq : request) (rest : list (extcall Obj))
         (members : list (str * json)),
    snd (run w (submit_answer env img ans)) = requests_post rq :: rest /\
    network_calls rest = [] /\
    json_body rq = JObj members /\
    lookup (lit "src") members
      = Some (JStr (lit "data:image/png;base64," ++ b64encode img)) /\
    lookup (lit "formats") members = Some (JArr [JStr (lit "text")]).
Proof.
  intros Hc.
  assert (Hnone : forall latex,
            network_calls (snd (run w (comparator latex ans))) = []).
  { intros latex; unfold network_calls.
    assert (Hall : forall c, In c (snd (run w (comparator latex ans)))
                     -> is_network c = false).
    { intros c Hin; apply comparator_log in Hin.
      destruct c; [contradiction|reflexivity..]. }
    induction (snd (run w (comparator latex ans))) as [|c l IH];
      [reflexivity|].
    cbn [filter]; rewrite (Hall c (or_introl eq_refl)).
    apply IH; intros c' Hin; apply Hall; now right. }
  destruct (run_branch env w img ans) as
    [Hu|e _ Ep|r _ Ep Hst|r e _ Ep Hst El|r _ Ep Hst El|latex Hreach];
    cbn [snd]; [congruence|..];
    eexists _, _, _; (split; [reflexivity|]);
    (split; [try reflexivity; apply Hnone|]);
    repeat split.
Qed.

End Properties.

(** * Worked requests *)

Import Demo.

Example b64_Man : b64encode [x4d; x61; x6e] = lit "TWFu".
Proof. reflexivity. Qed.

Example b64_Ma : b64encode [x4d; x61] = lit "TWE=".
Proof. reflexivity. Qed.

Example b64_M : b64encode [x4d] = lit "TQ==".
Proof. reflexivity. Qed.

Example b64_high_bits : b64encode [xfb; xff; xbf] = lit "+/+/".
Proof. reflexivity. Qed.

Example b64decode_Man : b64decode (lit "TWFu") = Some [x4d; x61; x6e].
Proof. reflexivity. Qed.

Example b64decode_rejects_break : b64decode (lit "TW Fu") = None.
Proof. reflexivity. Qed.

Example strip_spaces : strip (lit "  x^2 ") = lit "x^2".
Proof. reflexivity. Qed.

Example strip_separators : strip [9; 28; 120; 160; 8195; 10] = [120].
Proof. reflexivity. Qed.

(** The factored square against the default expected answer. *)
Example factored_square_is_correct :
  run (demo_world (transcribes (lit " (x+1)^2 ")))
      (submit_answer configured_env png_bytes None) =
  (Returned 200
     (payload (lit "(x+1)^2") (JBool true) (lit "Correct! Well done.")),
   [ requests_post (recognition_request configured_env png_bytes);
     parse_latex (lit "(x+1)^2");
     sympify (lit "(x + 1)**2");
     sub [1; 2; 1]%Z [1; 2; 1]%Z;
     simplify [0; 0; 0]%Z;
     eq_zero [] ]).
Proof. reflexivity. Qed.

Example sum_of_squares_is_incorrect :
  fst (run (demo_world (transcribes (lit "x^2+1")))
           (submit_answer configured_env png_bytes
              (Some (lit "(x + 1)**2")))) =
  Returned 200
    (payload (lit "x^2+1") (JBool false)
       (lit "Incorrect. Check your factoring and try again.")).
Proof. reflexivity. Qed.

Example unparseable_expected_answer :
  fst (run (demo_world (transcribes (lit "x^2+1")))
           (submit_answer configured_env png_bytes
              (Some (lit "))) invalid(((")))) =
  Returned 200
    (payload (lit "x^2+1") JNull
       (lit "Error processing your answer: could not parse")).
Proof. reflexivity. Qed.

(** C7. A recognition answer with status 200 whose body is not a JSON
    document: [response.json()] raises outside both [try] blocks and the
    exception leaves the handler, where the claim wants a structured
    response. *)
Theorem undecodable_body_escapes_handler :
  run (demo_world html_page)
      (submit_answer configured_env png_bytes None) =
  (Raised json_decode_error,
   [requests_post (recognition_request configured_env png_bytes)]).
Proof. reflexivity. Qed.

(** A document that is not an object, and a [text] that is not a string,
    leave the handler the same way. *)
Example non_string_text_escapes_handler :
  fst (run (demo_world (fun _ =>
              inr (Response 200 [] (inr (JObj [(lit "text", JNull)])))))
           (submit_answer configured_env png_bytes None)) =
  Raised (Exn (lit "AttributeError")
              (lit "'NoneType' object has no attribute 'strip'")).
Proof. reflexivity. Qed.

Example list_document_escapes_handler :
  fst (run (demo_world (fun _ =>
              inr (Response 200 [] (inr (JArr [JStr (lit "x^2")])))))
           (submit_answer configured_env png_bytes None)) =
  Raised (Exn (lit "AttributeError")
              (lit "'list' object has no attribute 'get'")).
Proof. reflexivity. Qed.

Example number_text_escapes_handler :
  fst (run (demo_world (fun _ =>
              inr (Response 200 []
                     (inr (JObj [(lit "text", JNum (lit "2.5"))])))))
           (submit_answer configured_env png_bytes None)) =
  Raised (Exn (lit "AttributeError")
              (lit "'float' object has no attribute 'strip'")).
Proof. reflexivity. Qed.

(** A document without a [text] member is handled. *)
Example missing_text_is_could_not_read :
  fst (run (demo_world (fun _ =>
              inr (Response 200 []
                     (inr (JObj [(lit "error", JStr (lit "no math"))])))))
           (submit_answer configured_env png_bytes None)) =
  Returned 200 could_not_read_payload.
Proof. reflexivity. Qed.

(** ** Where the claims as worded fail *)




(** ** The theorems at concrete requests *)

Lemma reaches_factored_square :
  reaches_comparator configured_env
    (demo_world (transcribes (lit "(x+1)^2"))) png_bytes (lit "(x+1)^2").
Proof.
  split; [reflexivity|].
  eexists; split; [reflexivity|].
  split; [reflexivity|]. split; [reflexivity|discriminate].
Defined.

Lemma correct_iff_simplified_difference_is_zero_witness :
  reaches_comparator configured_env
    (demo_world (transcribes (lit "(x+1)^2"))) png_bytes (lit "(x+1)^2") /\
  correct_field
    (fst (run (demo_world (transcribes (lit "(x+1)^2")))
              (submit_answer configured_env png_bytes None)))
  = Some (JBool true).
Proof.
  split; [exact reaches_factored_square|].
  apply (correct_iff_simplified_difference_is_zero configured_env
           (demo_world (transcribes (lit "(x+1)^2"))) png_bytes None
           (lit "(x+1)^2") reaches_factored_square).
  exists [1; 2; 1]%Z, [1; 2; 1]%Z, [0; 0; 0]%Z, [].
  repeat split.
Defined.


Lemma unconfigured_returns_dev_mode_payload_witness :
  (env_MATHPIX_APP_ID (Environ None (Some (lit "my_key"))) = None \/
   env_MATHPIX_APP_ID (Environ None (Some (lit "my_key")))
     = Some (lit "YOUR_APP_ID") \/
   env_MATHPIX_APP_KEY (Environ None (Some (lit "my_key"))) = None \/
   env_MATHPIX_APP_KEY (Environ None (Some (lit "my_key")))
     = Some (lit "YOUR_APP_KEY")) /\
  run (demo_world (transcribes (lit "(x+1)^2")))
      (submit_answer (Environ None (Some (lit "my_key"))) jpeg_bytes
         (Some (lit "x**2 + 1")))
  = (Returned 200 dev_mode_payload, []).
Proof.
  split; [left; reflexivity|].
  apply (unconfigured_returns_dev_mode_payload
           (Environ None (Some (lit "my_key")))
           (demo_world (transcribes (lit "(x+1)^2"))) jpeg_bytes
           (Some (lit "x**2 + 1"))).
  left; reflexivity.
Defined.

Lemma empty_transcription_is_could_not_read_witness :
  configured configured_env = true /\
  strip [32; 9; 10] = [] /\
  run (demo_world (transcribes [32; 9; 10]))
      (submit_answer configured_env png_bytes (Some (lit "x**2 + 1")))
  = (Returned 200 could_not_read_payload,
     [requests_post (recognition_request configured_env png_bytes)]).
Proof.
  split; [reflexivity|]. split; [reflexivity|].
  apply (empty_transcription_is_could_not_read configured_env
           (demo_world (transcribes [32; 9; 10])) png_bytes
           (Some (lit "x**2 + 1"))
           (Response 200 [] (inr (JObj [(lit "text", JStr [32; 9; 10])])))
           [(lit "text", JStr [32; 9; 10])]).
  - reflexivity.
  - reflexivity.
  - reflexivity.
  - reflexivity.
  - right; exists [32; 9; 10]; split; reflexivity.
Defined.




Lemma empty_expected_answer_is_default_witness :
  reaches_comparator configured_env
    (demo_world (transcribes (lit "(x+1)^2"))) png_bytes (lit "(x+1)^2") /\
  demo_world (transcribes (lit "(x+1)^2")) (parse_latex (lit "(x+1)^2"))
    = inr [1; 2; 1]%Z /\
  exists rest,
    snd (run (demo_world (transcribes (lit "(x+1)^2")))
             (submit_answer configured_env png_bytes (Some [])))
    = requests_post (recognition_request configured_env png_bytes)
      :: parse_latex (lit "(x+1)^2") :: sympify (lit "(x + 1)**2") :: rest.
Proof.
  split; [exact reaches_factored_square|]. split; [reflexivity|].
  apply (proj2 (proj2 (proj2 (proj2 (proj2
           (empty_expected_answer_is_default configured_env
              (demo_world (transcribes (lit "(x+1)^2"))) png_bytes)))))
           (lit "(x+1)^2") [1; 2; 1]%Z reaches_factored_square eq_refl).
Defined.

Lemma recognition_request_labels_png_witness :
  configured configured_env = true /\
  exists (rq : request) (rest : list (extcall Obj))
         (members : list (str * json)),
    snd (run (demo_world (transcribes (lit "x^2+1")))
             (submit_answer configured_env jpeg_bytes None))
      = requests_post rq :: rest /\
    network_calls rest = [] /\
    json_body rq = JObj members /\
    lookup (lit "src") members
      = Some (JStr (lit "data:image/png;base64," ++ b64encode jpeg_bytes)) /\
    lookup (lit "formats") members = Some (JArr [JStr (lit "text")]).
Proof.
  split; [reflexivity|].
  apply (recognition_request_labels_png configured_env
           (demo_world (transcribes (lit "x^2+1"))) jpeg_bytes None).
  reflexivity.
Defined.

(** * Further properties *)

(** ** Base64 *)

Lemma below_spec (P : N -> bool) (n : nat) :
  forallb P (below n) = true ->
  forall x, x < N.of_nat n -> P x = true.
Proof.
  unfold below; intros H x Hx.
  rewrite forallb_forall in H; apply H.
  apply in_map_iff; exists (N.to_nat x); split; [apply N2Nat.id|].
  apply in_seq; lia.
Qed.

Lemma below2_spec (P : N -> N -> bool) (n m : nat) :
  forallb (fun a => forallb (P a) (below m)) (below n) = true ->
  forall a b, a < N.of_nat n -> b < N.of_nat m -> P a b = true.
Proof.
  intros H a b Ha Hb.
  apply (below_spec (P a) m); [|exact Hb].
  exact (below_spec (fun a => forallb (P a) (below m)) n H a Ha).
Qed.

(** Every sextet has its own character, which is not the padding. *)
Lemma b64_index_char (n : N) :
  n < 64 ->
  b64_index (b64_char n) = Some n /\ (b64_char n =? b64_pad) = false.
Proof.
  intros Hn.
  pose proof (below_spec
    (fun n => match b64_index (b64_char n) with
              | Some m => (m =? n) && negb (b64_char n =? b64_pad)
              | None => false
              end) 64 eq_refl n Hn) as H.
  cbv beta in H.
  destruct (b64_index (b64_char n)) as [m|]; [|discriminate].
  apply andb_prop in H as [H1 H2].
  apply N.eqb_eq in H1; subst m.
  apply negb_true_iff in H2. now split.
Qed.

(** The first two sextets of a group give back its first byte. *)
Lemma sextets_12 (a b : N) :
  a < 256 -> b < 256 ->
  let s1 := N.shiftr a 2 in
  let s2 := N.lor (N.shiftl (N.land a 3) 4) (N.shiftr b 4) in
  s1 < 64 /\ s2 < 64 /\
  N.lor (N.shiftl s1 2) (N.shiftr s2 4) = a /\
  N.land s2 15 = N.shiftr b 4.
Proof.
  intros Ha Hb.
  pose proof (below2_spec
    (fun a b =>
       let s1 := N.shiftr a 2 in
       let s2 := N.lor (N.shiftl (N.land a 3) 4) (N.shiftr b 4) in
       (s1 <? 64) && (s2 <? 64)
       && (N.lor (N.shiftl s1 2) (N.shiftr s2 4) =? a)
       && (N.land s2 15 =? N.shiftr b 4)) 256 256) as H.
  specialize (H ltac:(vm_compute; reflexivity) a b Ha Hb).
  cbv zeta in *.
  apply andb_prop in H as [H H4]; apply andb_prop in H as [H H3].
  apply andb_prop in H as [H1 H2].
  apply N.ltb_lt in H1, H2; apply N.eqb_eq in H3, H4.
  repeat split; assumption.
Qed.

(** The last two sextets give back the second and third bytes. *)
Lemma sextets_34 (b c : N) :
  b < 256 -> c < 256 ->
  let s3 := N.lor (N.shiftl (N.land b 15) 2) (N.shiftr c 6) in
  let s4 := N.land c 63 in
  s3 < 64 /\ s4 < 64 /\
  N.lor (N.shiftl (N.shiftr b 4) 4) (N.shiftr s3 2) = b /\
  N.lor (N.shiftl (N.land s3 3) 6) s4 = c.
Proof.
  intros Hb Hc.
  pose proof (below2_spec
    (fun b c =>
       let s3 := N.lor (N.shiftl (N.land b 15) 2) (N.shiftr c 6) in
       let s4 := N.land c 63 in
       (s3 <? 64) && (s4 <? 64)
       && (N.lor (N.shiftl (N.shiftr b 4) 4) (N.shiftr s3 2) =? b)
       && (N.lor (N.shiftl (N.land s3 3) 6) s4 =? c)) 256 256) as H.
  specialize (H ltac:(vm_compute; reflexivity) b c Hb Hc).
  cbv zeta in *.
  apply andb_prop in H as [H H4]; apply andb_prop in H as [H H3].
  apply andb_prop in H as [H1 H2].
  apply N.ltb_lt in H1, H2; apply N.eqb_eq in H3, H4.
  repeat split; assumption.
Qed.

(** Induction three elements at a time, the way the encoder walks. *)
Lemma list_ind3 {A : Type} (P : list A -> Prop) :
  P [] ->
  (forall a, P [a]) ->
  (forall a b, P [a; b]) ->
  (forall a b c r, P r -> P (a :: b :: c :: r)) ->
  forall l, P l.
Proof.
  intros H0 H1 H2 H3.
  fix IH 1.
  intros [|a [|b [|c r]]]; [exact H0|apply H1|apply H2|].
  apply H3, IH.
Qed.

Lemma b64_ungroup_groups (ns : list N) :
  Forall (fun n => n < 256) ns ->
  b64_ungroup (b64_groups ns) = Some ns.
Proof.
  induction ns as [|a|a b|a b c r IH] using list_ind3; intros Hall.
  - reflexivity.
  - inversion_clear Hall as [|? ? Ha _].
    destruct (sextets_12 a 0 Ha eq_refl) as (H1 & H2 & E1 & _).
    change (N.shiftr 0 4) with 0 in *; rewrite N.lor_0_r in *.
    destruct (b64_index_char _ H1) as [I1 _].
    destruct (b64_index_char _ H2) as [I2 _].
    cbn [b64_groups b64_ungroup].
    now rewrite I1, I2, N.eqb_refl, E1.
  - inversion_clear Hall as [|? ? Ha Hall']; inversion_clear Hall' as [|? ? Hb _].
    destruct (sextets_12 a b Ha Hb) as (H1 & H2 & E1 & E2).
    destruct (sextets_34 b 0 Hb eq_refl) as (H3 & _ & E3 & _).
    change (N.shiftr 0 6) with 0 in *; rewrite N.lor_0_r in *.
    destruct (b64_index_char _ H1) as [I1 _].
    destruct (b64_index_char _ H2) as [I2 _].
    destruct (b64_index_char _ H3) as [I3 P3].
    cbn [b64_groups b64_ungroup].
    now rewrite I1, I2, P3, I3, N.eqb_refl, E1, E2, E3.
  - inversion_clear Hall as [|? ? Ha Hall'];
      inversion_clear Hall' as [|? ? Hb Hall''];
      inversion_clear Hall'' as [|? ? Hc Hr].
    destruct (sextets_12 a b Ha Hb) as (H1 & H2 & E1 & E2).
    destruct (sextets_34 b c Hb Hc) as (H3 & H4 & E3 & E4).
    destruct (b64_index_char _ H1) as [I1 _].
    destruct (b64_index_char _ H2) as [I2 _].
    destruct (b64_index_char _ H3) as [I3 P3].
    destruct (b64_index_char _ H4) as [I4 P4].
    cbn [b64_groups b64_ungroup].
    rewrite I1, I2, P3, I3, P4, I4, (IH Hr), E1, E2, E3, E4.
    reflexivity.
Qed.

Lemma bytes_of_to_N (bs : list byte) : bytes_of (map Byte.to_N bs) = Some bs.
Proof.
  induction bs as [|b bs IH]; [reflexivity|].
  cbn [map bytes_of]. now rewrite Byte.of_to_N, IH.
Qed.

Lemma to_N_below_256 (bs : list byte) :
  Forall (fun n => n < 256) (map Byte.to_N bs).
Proof.
  apply Forall_forall; intros n Hn.
  apply in_map_iff in Hn as (b & <- & _).
  pose proof (Byte.to_N_bounded b); lia.
Qed.

Lemma b64_round_trip (bs : list byte) : b64decode (b64encode bs) = Some bs.
Proof.
  unfold b64decode, b64encode.
  rewrite (b64_ungroup_groups _ (to_N_below_256 bs)).
  apply bytes_of_to_N.
Qed.

(** X1. Decoding the encoded image gives the image bytes back, for every
    byte string: the encoding of line 46 loses nothing, and different
    images have different encodings. *)
Theorem b64decode_b64encode (bs : list byte) :
  b64decode (b64encode bs) = Some bs /\
  forall bs', b64encode bs' = b64encode bs -> bs' = bs.
Proof.
  split; [apply b64_round_trip|].
  intros bs' H; apply (f_equal b64decode) in H.
  rewrite !b64_round_trip in H. now injection H.
Qed.

(** X2. Different uploads lead to different recognition requests,
    whatever the credentials: the request determines the image. *)
Theorem recognition_request_determines_image
    (env1 env2 : environ) (img1 img2 : list byte) :
  img1 <> img2 ->
  recognition_request env1 img1 <> recognition_request env2 img2.
Proof.
  intros Hne H; apply Hne.
  apply (f_equal json_body) in H.
  unfold recognition_request, data in H; cbn [json_body] in H.
  injection H as H.
  apply (f_equal b64decode) in H.
  rewrite !b64_round_trip in H.
  now injection H.
Qed.

Lemma b64_groups_length (ns : list N) :
  List.length (b64_groups ns) = (4 * ((List.length ns + 2) / 3))%nat.
Proof.
  induction ns as [|a|a b|a b c r IH] using list_ind3; try reflexivity.
  cbn [b64_groups List.length]; rewrite IH.
  replace (S (S (S (List.length r))) + 2)%nat with (List.length r + 2 + 1 * 3)%nat
    by lia.
  rewrite Nat.div_add by discriminate. lia.
Qed.

(** X3. The encoded image has four characters for every three bytes, the
    last group padded: [4 * ceil(n / 3)] characters for [n] bytes, nothing
    for an empty upload. *)
Theorem b64encode_length (bs : list byte) :
  List.length (b64encode bs) = (4 * ((List.length bs + 2) / 3))%nat.
Proof.
  unfold b64encode; rewrite b64_groups_length.
  now rewrite length_map.
Qed.

(** What a well-formed character of the encoding is. *)
Lemma b64_char_ok (n : N) :
  n < 64 ->
  In (b64_char n) b64_alphabet /\ b64_char n < 128 /\
  isspace (b64_char n) = false.
Proof.
  intros Hn; split.
  - unfold b64_char; apply nth_In.
    change (List.length b64_alphabet) with 64%nat; lia.
  - pose proof (below_spec
      (fun n => (b64_char n <? 128) && negb (isspace (b64_char n)))
      64 eq_refl n Hn) as H.
    cbv beta in H; apply andb_prop in H as [H1 H2].
    apply N.ltb_lt in H1; apply negb_true_iff in H2. now split.
Qed.

Lemma b64_groups_chars (ns : list N) :
  Forall (fun n => n < 256) ns ->
  Forall (fun c => (In c b64_alphabet \/ c = b64_pad) /\ c < 128 /\
                   isspace c = false) (b64_groups ns).
Proof.
  assert (Hpad : (In b64_pad b64_alphabet \/ b64_pad = b64_pad) /\
                 b64_pad < 128 /\ isspace b64_pad = false)
    by (split; [now right|split; reflexivity]).
  assert (Hch : forall n, n < 64 ->
            (In (b64_char n) b64_alphabet \/ b64_char n = b64_pad) /\
            b64_char n < 128 /\ isspace (b64_char n) = false).
  { intros n Hn; destruct (b64_char_ok n Hn) as (H1 & H2 & H3); auto. }
  induction ns as [|a|a b|a b c r IH] using list_ind3; intros Hall.
  - constructor.
  - inversion_clear Hall as [|? ? Ha _].
    destruct (sextets_12 a 0 Ha eq_refl) as (H1 & H2 & _).
    change (N.shiftr 0 4) with 0 in *; rewrite N.lor_0_r in *.
    cbn [b64_groups];
      repeat (apply Forall_cons;
              [first [apply Hch; assumption|exact Hpad]|]);
      apply Forall_nil.
  - inversion_clear Hall as [|? ? Ha Hall']; inversion_clear Hall' as [|? ? Hb _].
    destruct (sextets_12 a b Ha Hb) as (H1 & H2 & _).
    destruct (sextets_34 b 0 Hb eq_refl) as (H3 & _).
    change (N.shiftr 0 6) with 0 in *; rewrite N.lor_0_r in *.
    cbn [b64_groups];
      repeat (apply Forall_cons;
              [first [apply Hch; assumption|exact Hpad]|]);
      apply Forall_nil.
  - inversion_clear Hall as [|? ? Ha Hall'];
      inversion_clear Hall' as [|? ? Hb Hall''];
      inversion_clear Hall'' as [|? ? Hc Hr].
    destruct (sextets_12 a b Ha Hb) as (H1 & H2 & _).
    destruct (sextets_34 b c Hb Hc) as (H3 & H4 & _).
    cbn [b64_groups];
      repeat (apply Forall_cons; [apply Hch; assumption|]).
    exact (IH Hr).
Qed.

(** X4. The encoded image is made of the 64 characters of the base64
    alphabet and the padding [=] only; every character is ASCII and none
    is white space, so the [src] text has no break in it. *)
Theorem b64encode_alphabet (bs : list byte) :
  Forall (fun c => (In c b64_alphabet \/ c = b64_pad) /\ c < 128 /\
                   isspace c = false) (b64encode bs).
Proof. apply b64_groups_chars, to_N_below_256. Qed.

(** ** Stripping *)

Lemma lstrip_split (s : str) :
  exists pre, s = pre ++ lstrip s /\ forallb isspace pre = true.
Proof.
  induction s as [|c s (pre & E & Hpre)]; [exists []; auto|].
  cbn [lstrip]; destruct (isspace c) eqn:Ec.
  - exists (c :: pre); cbn [forallb app]; rewrite Ec, Hpre, <- E; auto.
  - exists []; auto.
Qed.

Lemma lstrip_head (s : str) (c : N) (r : str) :
  lstrip s = c :: r -> isspace c = false.
Proof.
  induction s as [|x s IH]; [discriminate|].
  cbn [lstrip]; destruct (isspace x) eqn:Ex; [exact IH|].
  intros H; injection H as <- _; exact Ex.
Qed.

Lemma rstrip_split (s : str) :
  exists post, s = rstrip s ++ post /\ forallb isspace post = true.
Proof.
  unfold rstrip.
  destruct (lstrip_split (rev s)) as (pre & E & Hpre).
  exists (rev pre); split.
  - rewrite <- rev_app_distr, <- E. symmetry; apply rev_involutive.
  - rewrite forallb_forall in *; intros x Hx; apply Hpre.
    now apply in_rev.
Qed.

Lemma rstrip_last (s : str) (c : N) (r : str) :
  rstrip s = r ++ [c] -> isspace c = false.
Proof.
  unfold rstrip; intros H.
  apply (f_equal (@rev N)) in H.
  rewrite rev_involutive, rev_app_distr in H; cbn [rev app] in H.
  exact (lstrip_head _ _ _ H).
Qed.

Lemma strip_trimmed (s : str) : trimmed (strip s).
Proof.
  unfold strip; split; intros c r H.
  - destruct (rstrip_split (lstrip s)) as (post & E & _).
    rewrite H in E; exact (lstrip_head _ _ _ E).
  - exact (rstrip_last _ _ _ H).
Qed.

Lemma strip_of_trimmed (s : str) : trimmed s -> strip s = s.
Proof.
  intros [Hhd Hlast].
  assert (Hl : lstrip s = s).
  { destruct s as [|c r]; [reflexivity|].
    cbn [lstrip]; now rewrite (Hhd c r eq_refl). }
  unfold strip, rstrip; rewrite Hl.
  assert (Hr : lstrip (rev s) = rev s).
  { destruct (rev s) as [|c r] eqn:E; [reflexivity|].
    cbn [lstrip]; rewrite (Hlast c (rev r)); [reflexivity|].
    apply (f_equal (@rev N)) in E; rewrite rev_involutive in E.
    exact E. }
  rewrite Hr; apply rev_involutive.
Qed.

Lemma strip_split (s : str) :
  exists pre post,
    s = pre ++ strip s ++ post /\
    forallb isspace pre = true /\ forallb isspace post = true.
Proof.
  destruct (lstrip_split s) as (pre & E1 & Hpre).
  destruct (rstrip_split (lstrip s)) as (post & E2 & Hpost).
  exists pre, post; unfold strip; rewrite <- E2; auto.
Qed.

(** X5. Stripping takes white space off both ends and nothing else: the
    string is the stripped one between two runs of white space, the
    stripped string neither starts nor ends with white space, and
    stripping it again changes nothing. *)
Theorem strip_removes_outer_whitespace_only (s : str) :
  (exists pre post,
     s = pre ++ strip s ++ post /\
     forallb isspace pre = true /\ forallb isspace post = true) /\
  trimmed (strip s) /\
  strip (strip s) = strip s.
Proof.
  split; [apply strip_split|].
  split; [apply strip_trimmed|].
  apply strip_of_trimmed, strip_trimmed.
Qed.

(** ** The handler, branch by branch *)

Section Contract.

Context {T : Type}.
Implicit Types (w : world T) (env : environ) (img : list byte)
  (ans : option str).

Lemma reaches_nonempty env w img (latex : str) :
  reaches_comparator env w img latex -> latex <> [].
Proof. intros [_ (r & _ & _ & _ & H)]; exact H. Qed.

Lemma Returned_inj (s s' : Z) (b b' : json) :
  Returned s b = Returned s' b' -> s = s' /\ b = b'.
Proof.
  intros H; split.
  - exact (f_equal (fun o => match o with Returned x _ => x | _ => s end) H).
  - exact (f_equal (fun o => match o with Returned _ x => x | _ => b end) H).
Qed.

Lemma payload_inj (l l' : str) (c c' : json) (f f' : str) :
  payload l c f = payload l' c' f' -> l = l' /\ c = c' /\ f = f'.
Proof. unfold payload; intros H; injection H as -> -> ->; auto. Qed.

(** What a transcription is made of. *)
Lemma latex_text_value (r : response) (latex : str) :
  latex_text r = inr latex ->
  exists members,
    response_json r = inr (JObj members) /\
    ((lookup (lit "text") members = None /\ latex = []) \/
     exists t, lookup (lit "text") members = Some (JStr t) /\
               latex = strip t).
Proof.
  unfold latex_text, py_get, py_strip.
  destruct (response_json r) as [e|doc]; [discriminate|].
  destruct doc as [| | | |items|members]; try discriminate.
  destruct (lookup (lit "text") members) as [v|] eqn:El.
  - destruct v as [| | |t| |]; try discriminate.
    intros H; injection H as <-.
    exists members; split; [reflexivity|]. right; exists t; auto.
  - intros H; injection H as <-.
    exists members; split; [reflexivity|]. now left.
Qed.

(** When decoding the answer of the service raises, and what. *)
Lemma latex_text_raises (r : response) (e : exn) :
  latex_text r = inl e <->
  response_json r = inl e \/
  (exists doc,
     response_json r = inr doc /\
     match doc with JObj _ => False | _ => True end /\
     e = Exn (lit "AttributeError")
             (lit "'" ++ type_name doc
              ++ lit "' object has no attribute 'get'")) \/
  (exists members v,
     response_json r = inr (JObj members) /\
     lookup (lit "text") members = Some v /\
     match v with JStr _ => False | _ => True end /\
     e = Exn (lit "AttributeError")
             (lit "'" ++ type_name v
              ++ lit "' object has no attribute 'strip'")).
Proof.
  unfold latex_text, py_get, py_strip.
  destruct (response_json r) as [e0|doc].
  { split.
    - intros H; injection H as <-; now left.
    - intros [H|[(? & H & _)|(? & ? & H & _)]]; try discriminate.
      now injection H as <-. }
  split.
  - intros H; right.
    destruct doc as [| | | |items|members];
      try (injection H as <-; left; eexists; repeat split; exact I).
    right.
    destruct (lookup (lit "text") members) as [v|] eqn:El; [|discriminate].
    exists members, v.
    destruct v; try discriminate;
      injection H as <-; repeat split; exact El.
  - intros [H|[(doc' & H & Hd & ->)|(m & v & H & Hl & Hv & ->)]];
      [discriminate| |]; injection H as ->.
    + destruct doc'; try reflexivity; contradiction.
    + rewrite Hl; destruct v; try reflexivity; contradiction.
Qed.

(** X6. The [latex] member of every three-field response has no white
    space at either end; when it is not empty, it is the [text] string of
    the document the service answered with status 200, less the white
    space around it. *)
Theorem echoed_latex_is_stripped_text
    env w img ans (st : Z) (latex : str) (c : json) (f : str) :
  fst (run w (submit_answer env img ans)) = Returned st (payload latex c f) ->
  trimmed latex /\
  (latex <> [] ->
   exists (r : response) (members : list (str * json)) (t pre post : str),
     w (requests_post (recognition_request env img)) = inr r /\
     status_code r = 200%Z /\
     response_json r = inr (JObj members) /\
     lookup (lit "text") members = Some (JStr t) /\
     t = pre ++ latex ++ post /\
     forallb isspace pre = true /\ forallb isspace post = true).
Proof.
  assert (Hnil : trimmed []).
  { split; intros ch r H; [discriminate|].
    destruct r; discriminate. }
  destruct (run_branch env w img ans) as
    [Hu|e Hc Ep|r Hc Ep Hst|r e Hc Ep Hst El|r Hc Ep Hst El|l Hreach];
    cbn [fst]; try discriminate.
  - intros H; apply Returned_inj in H as [_ H].
    apply payload_inj in H as (<- & _); split; [exact Hnil|congruence].
  - intros H; apply Returned_inj in H as [_ H].
    apply payload_inj in H as (<- & _); split; [exact Hnil|congruence].
  - intros H.
    assert (l = latex) as ->.
    { destruct (fst (run w (comparator l ans))) as [[?|?]|[? ?]];
        [|discriminate H|];
        apply Returned_inj in H as [_ H];
        now apply payload_inj in H as (-> & _). }
    clear H.
    destruct Hreach as [_ (r & Ep & Hst & El & Hne)].
    apply latex_text_value in El as (members & Hdoc & [[_ ->]|(t & Ht & ->)]);
      [congruence|].
    split; [apply strip_trimmed|].
    intros _. destruct (strip_split t) as (pre & post & E & Hpre & Hpost).
    exists r, members, t, pre, post; auto 10.
Qed.

(** The three feedback lines of a null [correct] are different texts. *)
Lemma null_feedbacks_differ (m : str) :
  lit "Backend connected! Configure MathPix keys to enable real math recognition."
    <> lit "Could not read your answer. Try writing more clearly." /\
  lit "Error processing your answer: " ++ m
    <> lit "Backend connected! Configure MathPix keys to enable real math recognition." /\
  lit "Error processing your answer: " ++ m
    <> lit "Could not read your answer. Try writing more clearly.".
Proof. repeat split; discriminate. Qed.

(** X7. A response with a null [correct] tells its cause by its feedback:
    the dev-mode notice exactly when the credentials are not configured,
    the could-not-read notice when the service answered 200 with an empty
    transcription, and [Error processing your answer: ] followed by the
    text of the exception when the request reached the comparator and a
    step of the comparison raised.  In the first two [latex] is empty, in
    the third it is not, and the three feedback texts differ. *)
Theorem null_correct_tells_its_cause
    env w img ans (st : Z) (latex f : str) :
  fst (run w (submit_answer env img ans))
    = Returned st (payload latex JNull f) ->
  st = 200%Z /\
  ((configured env = false /\ latex = [] /\
    f = lit "Backend connected! Configure MathPix keys to enable real math recognition.")
   \/
   (configured env = true /\ latex = [] /\
    f = lit "Could not read your answer. Try writing more clearly." /\
    exists r : response,
      w (requests_post (recognition_request env img)) = inr r /\
      status_code r = 200%Z /\ latex_text r = inr [])
   \/
   (latex <> [] /\ reaches_comparator env w img latex /\
    exists e : exn,
      comparison_raises w latex (expected ans) e /\
      f = lit "Error processing your answer: " ++ exn_str e /\
      f <> lit "Backend connected! Configure MathPix keys to enable real math recognition." /\
      f <> lit "Could not read your answer. Try writing more clearly.")).
Proof.
  destruct (run_branch env w img ans) as
    [Hu|e Hc Ep|r Hc Ep Hst|r e Hc Ep Hst El|r Hc Ep Hst El|l Hreach];
    cbn [fst]; try discriminate.
  - intros H; apply Returned_inj in H as [<- H].
    apply payload_inj in H as (<- & _ & <-).
    split; [reflexivity|]. left; auto.
  - intros H; apply Returned_inj in H as [<- H].
    apply payload_inj in H as (<- & _ & <-).
    split; [reflexivity|]. right; left.
    repeat split; auto. exists r; auto.
  - destruct (fst (run w (comparator l ans))) as [[e|e]|[b f0]] eqn:E;
      [|discriminate|];
      intros H; apply Returned_inj in H as [<- H];
      apply payload_inj in H as (<- & Hc & <-); [|discriminate Hc].
    split; [reflexivity|]. right; right.
    split; [exact (reaches_nonempty _ _ _ _ Hreach)|]. split; [exact Hreach|].
    exists e; split; [now apply comparator_raises|].
    split; [reflexivity|].
    destruct (null_feedbacks_differ (exn_str e)) as (_ & H1 & H2); auto.
Qed.

(** X8. A response with a boolean [correct] has status 200, a [latex]
    that is not empty, and the feedback that goes with the verdict:
    [Correct! Well done.] for true,
    [Incorrect. Check your factoring and try again.] for false. *)
Theorem verdict_carries_its_feedback
    env w img ans (st : Z) (latex f : str) (b : bool) :
  fst (run w (submit_answer env img ans))
    = Returned st (payload latex (JBool b) f) ->
  st = 200%Z /\ latex <> [] /\
  f = (if b then lit "Correct! Well done."
       else lit "Incorrect. Check your factoring and try again.").
Proof.
  destruct (run_branch env w img ans) as
    [Hu|e Hc Ep|r Hc Ep Hst|r e Hc Ep Hst El|r Hc Ep Hst El|l Hreach];
    cbn [fst]; try discriminate.
  destruct (fst (run w (comparator l ans))) as [[e|e]|[b0 f0]] eqn:E;
    [|discriminate|];
    intros H; apply Returned_inj in H as [<- H];
    apply payload_inj in H as (<- & Hc & <-); [discriminate Hc|].
  unfold py_bool in Hc; injection Hc as ->.
  apply comparator_verdict in E as [_ ->].
  split; [reflexivity|].
  split; [exact (reaches_nonempty _ _ _ _ Hreach)|reflexivity].
Qed.

Lemma posted_when_configured env w img ans (rq : request) :
  In (requests_post rq) (snd (run w (submit_answer env img ans))) ->
  configured env = true /\ rq = recognition_request env img.
Proof.
  intros Hin; split;
    [|exact (submit_answer_log env w img ans _ Hin)].
  destruct (run_branch env w img ans) as
    [Hu|e Hc Ep|r Hc Ep Hst|r e Hc Ep Hst El|r Hc Ep Hst El|l Hreach];
    try assumption; [destruct Hin|apply Hreach].
Qed.

Lemma configured_credentials env :
  configured env = true ->
  exists app_id app_key,
    env_MATHPIX_APP_ID env = Some app_id /\
    env_MATHPIX_APP_KEY env = Some app_key /\
    MATHPIX_APP_ID env = app_id /\ MATHPIX_APP_KEY env = app_key /\
    app_id <> lit "YOUR_APP_ID" /\ app_key <> lit "YOUR_APP_KEY".
Proof.
  intros Hc; apply configured_true in Hc.
  apply orb_false_iff in Hc as [Hid Hkey].
  unfold MATHPIX_APP_ID, MATHPIX_APP_KEY in *.
  destruct env as [[id|] [key|]]; cbn [getenv env_MATHPIX_APP_ID
    env_MATHPIX_APP_KEY] in *;
    try (rewrite str_eqb_refl in Hid; discriminate);
    try (rewrite str_eqb_refl in Hkey; discriminate).
  exists id, key; repeat split; try reflexivity.
  - intros ->; rewrite str_eqb_refl in Hid; discriminate.
  - intros ->; rewrite str_eqb_refl in Hkey; discriminate.
Qed.

(** X9. Whatever is posted goes to the MathPix text endpoint with a
    timeout of 15 and carries, as [app_id] and [app_key] headers, the two
    values set in the environment; both are set, and neither is the
    placeholder: the placeholders are never sent. *)
Theorem posted_credentials_are_the_configured_ones
    env w img ans (rq : request) :
  In (requests_post rq) (snd (run w (submit_answer env img ans))) ->
  exists app_id app_key : str,
    env_MATHPIX_APP_ID env = Some app_id /\
    env_MATHPIX_APP_KEY env = Some app_key /\
    app_id <> lit "YOUR_APP_ID" /\ app_key <> lit "YOUR_APP_KEY" /\
    url rq = lit "https://api.mathpix.com/v3/text" /\
    timeout rq = 15%Z /\
    headers rq = [ (lit "app_id", app_id); (lit "app_key", app_key);
                   (lit "Content-type", lit "application/json") ].
Proof.
  intros Hin.
  apply posted_when_configured in Hin as [Hc ->].
  destruct (configured_credentials env Hc)
    as (id & key & Eid & Ekey & Hid & Hkey & Nid & Nkey).
  exists id, key.
  unfold recognition_request, request_headers; cbn [url timeout headers].
  rewrite Hid, Hkey; auto 10.
Qed.


(** X11. When the LaTeX parser raises on the transcription, the expected
    answer is never looked at: for every expected answer, valid or not,
    the response is the same error response carrying the parser's message,
    and the calls are the recognition request and the parser, no more. *)
Theorem unparseable_latex_ignores_expected_answer
    env w img (latex : str) (e : exn) :
  reaches_comparator env w img latex ->
  w (parse_latex latex) = inl e ->
  forall ans,
    run w (submit_answer env img ans) =
    (Returned 200
       (payload latex JNull
          (lit "Error processing your answer: " ++ exn_str e)),
     [ requests_post (recognition_request env img); parse_latex latex ]).
Proof.
  intros Hreach He ans.
  rewrite (run_reaches env w img ans latex Hreach), run_comparator.
  now rewrite He.
Qed.

(** X12. In every execution the external calls follow the pipeline:
    recognition request, LaTeX parser, [sympify], subtraction, [simplify],
    comparison with zero, each at most once and none before the one ahead
    of it; at most six calls are made. *)
Theorem calls_follow_the_pipeline env w img ans :
  map call_rank (snd (run w (submit_answer env img ans)))
    = seq 0 (List.length (snd (run w (submit_answer env img ans)))) /\
  (List.length (snd (run w (submit_answer env img ans))) <= 6)%nat.
Proof.
  destruct (run_branch env w img ans) as
    [Hu|e Hc Ep|r Hc Ep Hst|r e Hc Ep Hst El|r Hc Ep Hst El|l Hreach];
    cbn [snd]; try (split; [reflexivity|cbn; lia]).
  rewrite run_comparator.
  destruct (w (parse_latex l)) as [e|s];
    [split; [reflexivity|cbn; lia]|].
  destruct (w (sympify (expected ans))) as [e|c];
    [split; [reflexivity|cbn; lia]|].
  destruct (w (sub s c)) as [e|d];
    [split; [reflexivity|cbn; lia]|].
  destruct (w (simplify d)) as [e|z];
    split; try reflexivity; cbn; lia.
Qed.

End Contract.

(** ** The further properties at concrete requests *)

Lemma recognition_request_determines_image_witness :
  png_bytes <> jpeg_bytes /\
  recognition_request configured_env png_bytes
    <> recognition_request configured_env jpeg_bytes.
Proof.
  split; [discriminate|].
  apply (recognition_request_determines_image configured_env configured_env
           png_bytes jpeg_bytes).
  discriminate.
Defined.

Lemma echoed_latex_is_stripped_text_witness :
  fst (run (demo_world (transcribes (lit " (x+1)^2 ")))
           (submit_answer configured_env png_bytes None))
  = Returned 200
      (payload (lit "(x+1)^2") (JBool true) (lit "Correct! Well done.")) /\
  trimmed (lit "(x+1)^2").
Proof.
  split; [reflexivity|].
  apply (echoed_latex_is_stripped_text configured_env
           (demo_world (transcribes (lit " (x+1)^2 "))) png_bytes None
           200 (lit "(x+1)^2") (JBool true) (lit "Correct! Well done.")).
  reflexivity.
Defined.

Lemma null_correct_tells_its_cause_witness :
  fst (run (demo_world (transcribes (lit "(x+1)^2")))
           (submit_answer configured_env png_bytes
              (Some (lit "))) invalid((("))))
  = Returned 200
      (payload (lit "(x+1)^2") JNull
         (lit "Error processing your answer: could not parse")) /\
  exists e : exn,
    comparison_raises (demo_world (transcribes (lit "(x+1)^2")))
      (lit "(x+1)^2") (expected (Some (lit "))) invalid((("))) e /\
    lit "Error processing your answer: could not parse"
      = lit "Error processing your answer: " ++ exn_str e.
Proof.
  split; [reflexivity|].
  destruct (null_correct_tells_its_cause configured_env
              (demo_world (transcribes (lit "(x+1)^2"))) png_bytes
              (Some (lit "))) invalid(((")) 200 (lit "(x+1)^2")
              (lit "Error processing your answer: could not parse")
              eq_refl)
    as [_ [(Hc & _)|[(_ & Hl & _)|(_ & _ & e & Hraise & Hf & _)]]].
  - cbv in Hc; discriminate Hc.
  - cbv in Hl; discriminate Hl.
  - exists e; split; assumption.
Defined.

Lemma verdict_carries_its_feedback_witness :
  fst (run (demo_world (transcribes (lit "x^2+1")))
           (submit_answer configured_env png_bytes None))
  = Returned 200
      (payload (lit "x^2+1") (JBool false)
         (lit "Incorrect. Check your factoring and try again.")) /\
  200%Z = 200%Z /\ lit "x^2+1" <> [] /\
  lit "Incorrect. Check your factoring and try again."
    = (if false then lit "Correct! Well done."
       else lit "Incorrect. Check your factoring and try again.").
Proof.
  split; [reflexivity|].
  apply (verdict_carries_its_feedback configured_env
           (demo_world (transcribes (lit "x^2+1"))) png_bytes None
           200 (lit "x^2+1")
           (lit "Incorrect. Check your factoring and try again.") false).
  reflexivity.
Defined.

Lemma posted_credentials_are_the_configured_ones_witness :
  In (requests_post (recognition_request configured_env png_bytes))
     (snd (run (demo_world unreachable)
               (submit_answer configured_env png_bytes None))) /\
  exists app_id app_key : str,
    env_MATHPIX_APP_ID configured_env = Some app_id /\
    env_MATHPIX_APP_KEY configured_env = Some app_key /\
    app_id <> lit "YOUR_APP_ID" /\ app_key <> lit "YOUR_APP_KEY" /\
    url (recognition_request configured_env png_bytes)
      = lit "https://api.mathpix.com/v3/text" /\
    timeout (recognition_request configured_env png_bytes) = 15%Z /\
    headers (recognition_request configured_env png_bytes)
      = [ (lit "app_id", app_id); (lit "app_key", app_key);
          (lit "Content-type", lit "application/json") ].
Proof.
  assert (Hin :
    In (requests_post (recognition_request configured_env png_bytes))
       (snd (run (demo_world unreachable)
                 (submit_answer configured_env png_bytes None))))
    by (left; reflexivity).
  split; [exact Hin|].
  exact (posted_credentials_are_the_configured_ones configured_env
           (demo_world unreachable) png_bytes None _ Hin).
Defined.

Lemma unparseable_latex_ignores_expected_answer_witness :
  reaches_comparator configured_env
    (demo_world (transcribes (lit "\frac{"))) png_bytes (lit "\frac{") /\
  demo_world (transcribes (lit "\frac{")) (parse_latex (lit "\frac{"))
    = inl (Exn (lit "LaTeXParsingError") (lit "I don't understand this")) /\
  run (demo_world (transcribes (lit "\frac{")))
      (submit_answer configured_env png_bytes
         (Some (lit "))) invalid(((")))
  = (Returned 200
       (payload (lit "\frac{") JNull
          (lit "Error processing your answer: "
           ++ exn_str (Exn (lit "LaTeXParsingError")
                           (lit "I don't understand this")))),
     [ requests_post (recognition_request configured_env png_bytes);
       parse_latex (lit "\frac{") ]).
Proof.
  assert (Hreach :
    reaches_comparator configured_env
      (demo_world (transcribes (lit "\frac{"))) png_bytes (lit "\frac{")).
  { split; [reflexivity|].
    eexists; split; [reflexivity|].
    split; [reflexivity|]. split; [reflexivity|discriminate]. }
  split; [exact Hreach|]. split; [reflexivity|].
  exact (unparseable_latex_ignores_expected_answer configured_env
           (demo_world (transcribes (lit "\frac{"))) png_bytes
           (lit "\frac{") _ Hreach eq_refl
           (Some (lit "))) invalid((("))).
Defined.
